(** * MultiAgent_AI_R: the orchestration engine, verified

    A shallow embedding of the coordination logic of the repository:

    - [ralf_proxy.py]  : [call_ralf_with_retry], the resilient upstream client,
                         and [chat_completions], the endpoint in front of it;
    - [src/crew.py]    : [NewsCrew.run], the research / validate / compose loop
                         with bounded backtracking, and [generate_news_article];
    - [src/callbacks.py]: the events the loop publishes;
    - [app.py]         : [generate_article], the submission endpoint,
                         [run_crew_async] and [get_result];
    - [src/formatting.py]: [format_news_article], the markdown post-processor,
                         and its copy in [format_news.py];
    - [src/tools.py]   : [NewsSearchTool._run], the news search tool.

    Conventions.  A Python [str] is the list of its Unicode code points.
    Python floats are idealised as rationals: rounding is left out, but the
    [OverflowError] of converting an int that no float can hold is kept.
    External collaborators (the
    upstream HTTP service, the CrewAI workers, the random generator, the uuid
    generator) are oracles passed as arguments; Python built-ins whose Unicode
    tables are not reproduced here ([str.upper], [str.isalnum]) are section
    variables, so every theorem holds whatever those tables are. *)

From Stdlib Require Import QArith Qminmax Lqa.
From stdpp Require Import gmap strings list pretty.

Set Default Proof Using "Type".

(* ===================================================================== *)
(** * Python strings                                                      *)
(* ===================================================================== *)

Module Py.

(** A character is a Unicode code point. *)
Definition char : Type := N.
Definition str : Type := list char.

(** Decoding of the UTF-8 bytes of a literal written in this file. *)
Fixpoint utf8_decode (bs : list N) : str :=
  match bs with
  | [] => []
  | b0 :: r0 =>
    if (b0 <? 128)%N then b0 :: utf8_decode r0
    else match r0 with
    | [] => [b0]
    | b1 :: r1 =>
      if (b0 <? 224)%N then ((b0 - 192) * 64 + (b1 - 128))%N :: utf8_decode r1
      else match r1 with
      | [] => [b0; b1]
      | b2 :: r2 =>
        if (b0 <? 240)%N
        then ((b0 - 224) * 4096 + (b1 - 128) * 64 + (b2 - 128))%N :: utf8_decode r2
        else match r2 with
        | [] => [b0; b1; b2]
        | b3 :: r3 =>
          ((b0 - 240) * 262144 + (b1 - 128) * 4096 + (b2 - 128) * 64 + (b3 - 128))%N
            :: utf8_decode r3
        end
      end
    end
  end.

Fixpoint bytes_of (s : string) : list N :=
  match s with
  | EmptyString => []
  | String a s' => Ascii.N_of_ascii a :: bytes_of s'
  end.

(** [lit "..."] is the Python string literal with that text. *)
Definition lit (s : string) : str := utf8_decode (bytes_of s).
Global Arguments lit : simpl never.

(** [needle in hay] on strings: substring test. *)
Fixpoint startswith (hay prefix : str) {struct prefix} : bool :=
  match prefix, hay with
  | [], _ => true
  | p :: prefix', h :: hay' => (p =? h)%N && startswith hay' prefix'
  | _ :: _, [] => false
  end.

Fixpoint contains (needle hay : str) : bool :=
  startswith hay needle ||
  match hay with
  | [] => false
  | _ :: hay' => contains needle hay'
  end.

(** [s[:n]] *)
Definition slice_to (n : nat) (s : str) : str := take n s.

(** [str(n)] and [f"{n}"] for an integer. *)
Definition of_int (z : Z) : str := lit (pretty z).
Global Arguments of_int : simpl never.

(** [str.isspace] on one character (Py_UNICODE_ISSPACE); also the class
    [\s] of [re] on [str] patterns. *)
Definition isspace (c : char) : bool :=
  ((9 <=? c) && (c <=? 13) || (28 <=? c) && (c <=? 32)
   || (c =? 133) || (c =? 160) || (c =? 5760)
   || (8192 <=? c) && (c <=? 8202)
   || (c =? 8232) || (c =? 8233) || (c =? 8239) || (c =? 8287) || (c =? 12288))%N.

(** [str.upper] restricted to ASCII text, where it is the built-in's value. *)
Definition ascii_upper (s : str) : str :=
  map (fun c => if (97 <=? c)%N && (c <=? 122)%N then (c - 32)%N else c) s.

End Py.

Abbreviation str := Py.str.
Abbreviation lit := Py.lit.

(* ===================================================================== *)
(** * ralf_proxy.py: the resilient upstream client                        *)
(* ===================================================================== *)

Module Proxy.

(** Module-level configuration, read from the environment with defaults. *)
Record Config := {
  MAX_RETRIES : Z;
  BASE_DELAY : Q;
  MAX_DELAY : Q;
  JITTER_RANGE : Q
}.

Definition default_config : Config :=
  {| MAX_RETRIES := 5; BASE_DELAY := 2; MAX_DELAY := 60; JITTER_RANGE := 1 # 2 |}.

(** The literal [0.5] of [max(0.5, delay + jitter)]; the spec's MinDelay. *)
Definition MIN_DELAY : Q := 1 # 2.

(** [requests.Response]: the two attributes the client reads. *)
Record Response := { status_code : Z; text : str }.

(** Outcome of [requests.post]. *)
Inductive PostOutcome :=
| Responded (response : Response)
| RequestException (e : str).

(** The error dictionary [{"error": ..., "status_code": ...}]. *)
Record ErrorDict := { error : str; error_status_code : Z }.

(** What the caller can observe beside the returned pair. *)
Record Log := { posts : nat; sleeps : list Q }.

Definition log_post (l : Log) : Log := {| posts := S (posts l); sleeps := sleeps l |}.
Definition log_sleep (d : Q) (l : Log) : Log :=
  {| posts := posts l; sleeps := sleeps l ++ [d] |}.

(** Body of the [try] block: either the function returns, or [last_error]
    is set and control falls through to the backoff computation. *)
Inductive Attempt :=
| Return (r : option Response * option ErrorDict)
| Retryable (last_error : ErrorDict).

Definition try_post (outcome : PostOutcome) : Attempt :=
  match outcome with
  | Responded response =>
    if (200 <=? status_code response)%Z && (status_code response <? 300)%Z then
      Return (Some response, None)
    else if (400 <=? status_code response)%Z && (status_code response <? 500)%Z
            && negb (status_code response =? 429)%Z then
      let error_msg :=
        lit "Error cliente RALF: " ++ Py.of_int (status_code response)
          ++ lit " - " ++ text response in
      Return (None, Some {| error := error_msg; error_status_code := status_code response |})
    else
      let error_msg :=
        lit "Error temporal RALF: " ++ Py.of_int (status_code response)
          ++ lit " - " ++ Py.slice_to 200 (text response) in
      Retryable {| error := error_msg; error_status_code := status_code response |}
  | RequestException e =>
    let error_msg := lit "Excepción conexión RALF: " ++ e in
    Retryable {| error := error_msg; error_status_code := 503 |}
  end.

(** [random.random() * 2 - 1] *)
Definition jitter_draw (rnd : Q) : Q := (rnd * 2 - 1)%Q.

(** The first integer that does not fit a float: it rounds to 2**1024. *)
Definition FLOAT_LIMIT : Z := 2 ^ 1024 - 2 ^ 970.
Global Arguments FLOAT_LIMIT : simpl never.

(** [float * int] converts the int to a float before it multiplies: the
    float (idealised as the integer itself), or [None] for the
    [OverflowError] "int too large to convert to float". *)
Definition float_of_int (n : Z) : option Q :=
  if (Z.abs n <? FLOAT_LIMIT)%Z then Some (inject_Z n) else None.

(** [min(MAX_DELAY, BASE_DELAY * (2**attempt))]; [None] when the product
    raises [OverflowError]. *)
Definition backoff_delay (cfg : Config) (attempt : nat) : option Q :=
  match float_of_int (2 ^ Z.of_nat attempt) with
  | Some power => Some (Qmin (MAX_DELAY cfg) (BASE_DELAY cfg * power)%Q)
  | None => None
  end.

Definition final_delay (cfg : Config) (attempt : nat) (rnd : Q) : option Q :=
  match backoff_delay cfg attempt with
  | Some delay =>
    let jitter := (delay * JITTER_RANGE cfg * jitter_draw rnd)%Q in
    Some (Qmax (1 # 2) (delay + jitter)%Q)
  | None => None
  end.

(** How a call of the client ends: it returns its pair, or the backoff
    computation, which no [try] covers, raises [OverflowError]. *)
Inductive CallOutcome :=
| Returned (r : option Response * option ErrorDict)
| Raises_OverflowError.

Section Client.
Variable cfg : Config.
(** [post attempt]: what [requests.post] does at that iteration. *)
Variable post : nat -> PostOutcome.
(** [random attempt]: the value of [random.random()] at that iteration. *)
Variable random : nat -> Q.

(** [for attempt in range(MAX_RETRIES): ...] followed by the final return. *)
Fixpoint retry_loop (attempts : list nat) (last_error : option ErrorDict) (log : Log)
  : CallOutcome * Log :=
  match attempts with
  | [] => (Returned (None, last_error), log)
  | attempt :: rest =>
    let log := log_post log in
    match try_post (post attempt) with
    | Return r => (Returned r, log)
    | Retryable e =>
      match final_delay cfg attempt (random attempt) with
      | None => (Raises_OverflowError, log)
      | Some d =>
        let log :=
          if (Z.of_nat attempt <? MAX_RETRIES cfg - 1)%Z then log_sleep d log else log in
        retry_loop rest (Some e) log
      end
    end
  end.

Definition call_ralf_with_retry : CallOutcome * Log :=
  retry_loop (seq 0 (Z.to_nat (MAX_RETRIES cfg))) None {| posts := 0; sleeps := [] |}.
End Client.

(** The spec's formula, in its words. *)
Definition spec_delay (MinDelay MaxDelay BaseDelay JitterRange : Q) (a : nat) (r : Q) : Q :=
  let d := Qmin MaxDelay (BaseDelay * inject_Z (2 ^ Z.of_nat a))%Q in
  Qmax MinDelay (d + d * JitterRange * r)%Q.

End Proxy.

(* ===================================================================== *)
(** * Properties of the resilient client                                  *)
(* ===================================================================== *)

Module ProxyFacts.
Import Proxy.

Lemma lit_app_nonempty (s : string) (t : str) : lit s <> [] -> lit s ++ t <> [].
Proof. destruct (lit s); [congruence | discriminate]. Qed.

(** ** What the service did, read off its answer *)

(** A failure the client retries: an exception of [requests], or a status
    outside the success range that is not a 4xx other than 429. *)
Definition retryable (outcome : PostOutcome) : Prop :=
  match outcome with
  | RequestException _ => True
  | Responded response =>
    ~ (200 <= status_code response < 300)%Z
    /\ (~ (400 <= status_code response < 500)%Z \/ status_code response = 429%Z)
  end.

(** The status code kept with a failure. *)
Definition outcome_status (outcome : PostOutcome) : Z :=
  match outcome with
  | RequestException _ => 503
  | Responded response => status_code response
  end.

(** The client-error result for a response. *)
Definition client_error (response : Response) : ErrorDict :=
  {| error := lit "Error cliente RALF: " ++ Py.of_int (status_code response)
                ++ lit " - " ++ text response;
     error_status_code := status_code response |}.

(** The three shapes [try_post] can produce. *)
Lemma try_post_cases outcome :
  (exists response, outcome = Responded response /\
     (200 <= status_code response < 300)%Z /\
     try_post outcome = Return (Some response, None))
  \/ (exists response, outcome = Responded response /\
     (400 <= status_code response < 500)%Z /\ status_code response <> 429%Z /\
     try_post outcome = Return (None, Some (client_error response)))
  \/ (retryable outcome /\
      exists e, try_post outcome = Retryable e /\ error e <> []
                /\ error_status_code e = outcome_status outcome).
Proof.
  destruct outcome as [response | e]; unfold try_post, client_error.
  - destruct (200 <=? status_code response)%Z eqn:H1;
      destruct (status_code response <? 300)%Z eqn:H2; cbn;
      try (left; exists response; split; [done | split; [lia | done]]).
    all: destruct (400 <=? status_code response)%Z eqn:H3;
      destruct (status_code response <? 500)%Z eqn:H4;
      destruct (status_code response =? 429)%Z eqn:H5; cbn.
    all: try (right; left; exists response; split; [done | split; [lia | split; [lia | done]]]).
    all: right; right; split; [lia |]; eexists; split; [done |]; cbn; split; [| done];
      apply lit_app_nonempty; vm_compute; discriminate.
  - right; right; split; [done |]; eexists; split; [done |]; cbn; split; [| done].
    apply lit_app_nonempty; vm_compute; discriminate.
Qed.




Lemma retryable_status (outcome : PostOutcome) :
  retryable outcome -> ~ (200 <= outcome_status outcome < 300)%Z.
Proof. destruct outcome as [response | e]; cbn; lia. Qed.

(** ** The conversion that overflows *)

Lemma float_of_pow2 (a : nat) :
  float_of_int (2 ^ Z.of_nat a)
  = if (a <? 1024)%nat then Some (inject_Z (2 ^ Z.of_nat a)) else None.
Proof.
  unfold float_of_int.
  assert (Hpos : (0 < 2 ^ Z.of_nat a)%Z) by (apply Z.pow_pos_nonneg; lia).
  rewrite Z.abs_eq by (by apply Z.lt_le_incl).
  destruct (a <? 1024)%nat eqn:Ha.
  - apply Nat.ltb_lt in Ha.
    assert (H1 : (2 ^ Z.of_nat a <= 2 ^ 1023)%Z) by (apply Z.pow_le_mono_r; lia).
    assert (H2 : (2 ^ 1023 < FLOAT_LIMIT)%Z) by (by vm_compute).
    replace (2 ^ Z.of_nat a <? FLOAT_LIMIT)%Z with true; [done |].
    symmetry. apply Z.ltb_lt. eapply Z.le_lt_trans; [exact H1 | exact H2].
  - apply Nat.ltb_ge in Ha.
    assert (H1 : (2 ^ 1024 <= 2 ^ Z.of_nat a)%Z) by (apply Z.pow_le_mono_r; lia).
    assert (H2 : (FLOAT_LIMIT <= 2 ^ 1024)%Z) by (by vm_compute).
    replace (2 ^ Z.of_nat a <? FLOAT_LIMIT)%Z with false; [done |].
    symmetry. apply Z.ltb_ge. eapply Z.le_trans; [exact H2 | exact H1].
Qed.

(** Up to attempt 1023 the duration is the spec's formula. *)
Lemma final_delay_some (cfg : Config) (a : nat) (rnd : Q) :
  (a < 1024)%nat ->
  final_delay cfg a rnd
  = Some (spec_delay MIN_DELAY (MAX_DELAY cfg) (BASE_DELAY cfg) (JITTER_RANGE cfg)
            a (jitter_draw rnd)).
Proof.
  intros Ha. unfold final_delay, backoff_delay. rewrite float_of_pow2.
  replace (a <? 1024)%nat with true by (symmetry; by apply Nat.ltb_lt).
  reflexivity.
Qed.

(** From attempt 1024 on there is none: the computation raises. *)
Lemma final_delay_none (cfg : Config) (a : nat) (rnd : Q) :
  (1024 <= a)%nat -> final_delay cfg a rnd = None.
Proof.
  intros Ha. unfold final_delay, backoff_delay. rewrite float_of_pow2.
  replace (a <? 1024)%nat with false by (symmetry; by apply Nat.ltb_ge).
  reflexivity.
Qed.


Section Loop.
Variable cfg : Config.
Variable post : nat -> PostOutcome.
Variable random : nat -> Q.

(** The duration the spec's formula gives for attempt [a]. *)
Definition delay_at (a : nat) : Q :=
  spec_delay MIN_DELAY (MAX_DELAY cfg) (BASE_DELAY cfg) (JITTER_RANGE cfg)
    a (jitter_draw (random a)).

Lemma retry_loop_return a rest last_error log r :
  try_post (post a) = Return r ->
  retry_loop cfg post random (a :: rest) last_error log = (Returned r, log_post log).
Proof. intros H. cbn [retry_loop]. by rewrite H. Qed.

Lemma retry_loop_retryable a rest last_error log e :
  try_post (post a) = Retryable e ->
  (a < 1024)%nat ->
  retry_loop cfg post random (a :: rest) last_error log
  = retry_loop cfg post random rest (Some e)
      (if (Z.of_nat a <? MAX_RETRIES cfg - 1)%Z
       then log_sleep (delay_at a) (log_post log) else log_post log).
Proof.
  intros He Ha. cbn [retry_loop]. rewrite He, (final_delay_some cfg a (random a) Ha).
  reflexivity.
Qed.

Lemma retry_loop_overflow a rest last_error log e :
  try_post (post a) = Retryable e ->
  (1024 <= a)%nat ->
  retry_loop cfg post random (a :: rest) last_error log
  = (Raises_OverflowError, log_post log).
Proof.
  intros He Ha. cbn [retry_loop]. by rewrite He, (final_delay_none cfg a (random a) Ha).
Qed.



(** The pair returned has exactly one component, provided the loop body
    runs at least once or [last_error] is already set; a response returned
    is one the service gave, with a status in the success range; an error
    returned has a text and a status outside that range.  The call raises
    only at an attempt from 1024 on. *)
Lemma retry_loop_result attempts last_error log :
  (attempts <> []
   \/ exists e, last_error = Some e /\ error e <> []
                /\ ~ (200 <= error_status_code e < 300)%Z) ->
  match fst (retry_loop cfg post random attempts last_error log) with
  | Returned (Some response, None) =>
    (200 <= status_code response < 300)%Z
    /\ exists a, a ∈ attempts /\ post a = Responded response
  | Returned (None, Some e) =>
    error e <> [] /\ ~ (200 <= error_status_code e < 300)%Z
  | Returned _ => False
  | Raises_OverflowError => exists a, a ∈ attempts /\ (1024 <= a)%nat
  end.
Proof.
  revert last_error log.
  induction attempts as [|a rest IH]; intros last_error log H.
  - destruct H as [? | (e & -> & He)]; done.
  - destruct (try_post_cases (post a))
      as [(rsp & Hp & Hr & Ht) | [(rsp & Hp & Hr & Hne & Ht) | (Hret & e & Ht & He & Hst)]].
    + rewrite (retry_loop_return _ _ _ _ _ Ht). cbn.
      split; [done |]. exists a. split; [apply list_elem_of_here | done].
    + rewrite (retry_loop_return _ _ _ _ _ Ht). cbn. split; [| lia].
      apply lit_app_nonempty. vm_compute; discriminate.
    + destruct (decide (a < 1024)%nat) as [Ha | Ha].
      2:{ rewrite (retry_loop_overflow _ _ _ _ _ Ht) by lia. cbn.
          exists a. split; [apply list_elem_of_here | lia]. }
      rewrite (retry_loop_retryable _ _ _ _ _ Ht Ha).
      apply retryable_status in Hret. rewrite <- Hst in Hret.
      specialize (IH (Some e)
        (if (Z.of_nat a <? MAX_RETRIES cfg - 1)%Z
         then log_sleep (delay_at a) (log_post log) else log_post log)
        ltac:(right; by exists e)).
      destruct (retry_loop cfg post random rest (Some e) _) as [[[[rsp|] [e'|]]|] log'];
        cbn in IH |- *; try done.
      * destruct IH as (? & b & ? & ?).
        split; [done |]. exists b. split; [by apply list_elem_of_further | done].
      * destruct IH as (b & ? & ?). exists b. split; [by apply list_elem_of_further | done].
Qed.

End Loop.














End ProxyFacts.

(* ===================================================================== *)
(** * src/callbacks.py and src/crew.py: the pipeline orchestrator         *)
(* ===================================================================== *)

Module Crew.

(** The three workers ([Crew(...).kickoff()] of a one-agent crew). *)
Inductive Role := Investigator | Analyst | Writer.

Definition role_eqb (a b : Role) : bool :=
  match a, b with
  | Investigator, Investigator | Analyst, Analyst | Writer, Writer => true
  | _, _ => false
  end.

(** What building and running a one-agent crew does: it returns a result
    (here its [str]) or raises an exception (here its [str]). *)
Inductive Kickoff :=
| Ok (result : str)
| Raises (e : str).

(** The workers are oracles: the outcome may depend on the iteration and on
    the texts handed to the worker. *)
Record Workers := {
  investigation : nat -> str -> Kickoff;        (* iteration, topic *)
  analysis : nat -> str -> Kickoff;             (* iteration, investigation_result *)
  writing : nat -> str -> str -> Kickoff        (* iteration, investigation_result, analysis_result *)
}.

(** Payloads handed to [RealtimeAgentCallback._emit], without the metadata
    (session id, timestamp, elapsed time) and the fixed [message] texts. *)
Inductive Event :=
| agent_start (agent task : str) (task_number : nat)
| agent_finish (agent output : str)
| backtracking (agent target feedback : str)
| crew_finish (result : str)
| error_event (agent error : str).

(** What a run does to the outside: events published and workers called. *)
Inductive Action :=
| Emit (e : Event)
| Call (role : Role) (outcome : Kickoff).

(** The mutable attributes of [RealtimeAgentCallback]. *)
Record Handler := { current_agent : option str; task_counter : nat }.

(** Effectful code: handler state, actions performed, exceptions. *)
Definition M (A : Type) : Type := Handler -> (str + A) * Handler * list Action.

Global Instance M_ret : MRet M := fun A x h => (inr x, h, []).
Global Instance M_bind : MBind M := fun A B f m h =>
  match m h with
  | (inl e, h1, acts) => (inl e, h1, acts)
  | (inr x, h1, acts) => let '(y, h2, acts') := f x h1 in (y, h2, acts ++ acts')
  end.

Definition _emit (e : Event) : M unit := fun h => (inr tt, h, [Emit e]).
Definition set_handler (h' : Handler) : M unit := fun _ => (inr tt, h', []).
Definition get_handler : M Handler := fun h => (inr h, h, []).

(** [crew.kickoff()] *)
Definition kickoff (role : Role) (outcome : Kickoff) : M str := fun h =>
  match outcome with
  | Ok result => (inr result, h, [Call role outcome])
  | Raises e => (inl e, h, [Call role outcome])
  end.

Definition on_agent_start (agent_name task_description : str) : M unit :=
  h ← get_handler;
  set_handler {| current_agent := Some agent_name; task_counter := S (task_counter h) |};;
  _emit (agent_start agent_name (Py.slice_to 200 task_description) (S (task_counter h))).

Definition on_agent_finish (agent_name output : str) : M unit :=
  _emit (agent_finish agent_name (Py.slice_to 400 output));;
  h ← get_handler;
  set_handler {| current_agent := None; task_counter := task_counter h |}.

Definition on_backtracking (feedback : str) : M unit :=
  _emit (backtracking (lit "Analista de Sesgos y Fact-Checker")
                      (lit "Investigador de Noticias")
                      (Py.slice_to 300 feedback)).

Definition on_crew_finish (result : str) : M unit :=
  _emit (crew_finish (Py.slice_to 500 result)).

(** [on_error(error_message)] with [agent_name] left at [None]. *)
Definition on_error (error_message : str) : M unit :=
  h ← get_handler;
  let agent := match current_agent h with
               | Some (c :: a) => c :: a
               | Some [] | None => lit "System"
               end in
  _emit (error_event agent error_message).

(** The dictionary returned by [NewsCrew.run]; an absent key is [None]. *)
Record RunResult := {
  status : str;
  topic : str;
  article : option str;
  error : option str;
  iterations : option nat;
  session_id : str
}.

(** How one pass through the loop body ends. *)
Inductive Step :=
| Return (r : RunResult)
| Continue (topic : str).

Definition MAX_ITERATIONS : nat := 3.
Global Arguments MAX_ITERATIONS : simpl never.

Section Run.
(** [str.upper] *)
Variable upper : str -> str.
(** [self.session_id] *)
Variable sid : str.
Variable w : Workers.

(** The body of [while iteration < MAX_ITERATIONS], after [iteration += 1]. *)
Definition cycle (iteration : nat) (topic : str) : M Step :=
  on_agent_start (lit "Investigador de Noticias") (lit "Investigando: " ++ topic);;
  investigation_result ← kickoff Investigator (investigation w iteration topic);
  on_agent_finish (lit "Investigador de Noticias") investigation_result;;
  on_agent_start (lit "Analista de Sesgos y Fact-Checker") (lit "Analizando reporte...");;
  analysis_result ← kickoff Analyst (analysis w iteration investigation_result);
  on_agent_finish (lit "Analista de Sesgos y Fact-Checker") analysis_result;;
  let analysis_text := upper analysis_result in
  if Py.contains (lit "APROBADO") analysis_text
     && negb (Py.contains (lit "RECHAZADO") analysis_text) then
    on_agent_start (lit "Redactor Senior") (lit "Escribiendo artículo final...");;
    final_article ← kickoff Writer (writing w iteration investigation_result analysis_result);
    on_agent_finish (lit "Redactor Senior") (lit "Artículo finalizado");;
    on_crew_finish final_article;;
    mret (Return {| status := lit "success";
                    topic := topic;
                    article := Some final_article;
                    error := None;
                    iterations := Some iteration;
                    session_id := sid |})
  else if Py.contains (lit "RECHAZADO") analysis_text then
    if iteration <? MAX_ITERATIONS then
      on_backtracking analysis_result;;
      let feedback_text := Py.slice_to 200 analysis_result in
      mret (Continue (topic ++ lit " (REFINAMIENTO: " ++ feedback_text ++ lit ")"))
    else
      mret (Return {| status := lit "error";
                      topic := topic;
                      article := None;
                      error := Some (lit "Contenido rechazado después de "
                                       ++ Py.of_int (Z.of_nat MAX_ITERATIONS)
                                       ++ lit " intentos. Último feedback: "
                                       ++ analysis_result);
                      iterations := None;
                      session_id := sid |})
  else
    mret (Continue topic).

(** The [except Exception as e] clause; [topic] is the variable as it
    stands when the exception is raised. *)
Definition except_handler (e : str) (topic : str) : M RunResult :=
  let error_msg := lit "Error durante ejecución de crew: " ++ e in
  on_error error_msg;;
  mret {| status := lit "error";
          topic := topic;
          article := None;
          error := Some error_msg;
          iterations := None;
          session_id := sid |}.

(** The return after the loop. *)
Definition exhausted (topic : str) : RunResult :=
  {| status := lit "error";
     topic := topic;
     article := None;
     error := Some (lit "No se logró aprobación después de "
                      ++ Py.of_int (Z.of_nat MAX_ITERATIONS) ++ lit " iteraciones");
     iterations := None;
     session_id := sid |}.

(** [while iteration < MAX_ITERATIONS: iteration += 1; ...] inside the
    [try]; [None] when the fuel runs out before the loop ends. *)
Fixpoint while_loop (fuel : nat) (iteration : nat) (topic : str) (h : Handler)
  : option RunResult * Handler * list Action :=
  match fuel with
  | O => (None, h, [])
  | S fuel' =>
    if iteration <? MAX_ITERATIONS then
      let iteration := S iteration in
      match cycle iteration topic h with
      | (inl e, h1, acts) =>
        match except_handler e topic h1 with
        | (inr r, h2, acts') => (Some r, h2, acts ++ acts')
        | (inl _, h2, acts') => (None, h2, acts ++ acts')
        end
      | (inr (Return r), h1, acts) => (Some r, h1, acts)
      | (inr (Continue topic'), h1, acts) =>
        let '(r, h2, acts') := while_loop fuel' iteration topic' h1 in
        (r, h2, acts ++ acts')
      end
    else (Some (exhausted topic), h, [])
  end.

(** [NewsCrew.run(topic, current_date)] with [iteration = 0] at the start. *)
Definition run (topic : str) (h : Handler) : option RunResult * Handler * list Action :=
  while_loop (S MAX_ITERATIONS) 0 topic h.
End Run.

(** Outcomes of the calls to one worker, in order. *)
Definition calls (role : Role) (acts : list Action) : list Kickoff :=
  omap (fun a => match a with
                 | Call r k => if role_eqb r role then Some k else None
                 | Emit _ => None
                 end) acts.

(** Events published, in order. *)
Definition events (acts : list Action) : list Event :=
  omap (fun a => match a with Emit e => Some e | Call _ _ => None end) acts.

(** Backtrack events published, in order. *)
Definition backtrackings (acts : list Action) : list Event :=
  omap (fun a => match a with
                 | Emit (backtracking agent target feedback) =>
                   Some (backtracking agent target feedback)
                 | _ => None
                 end) acts.

(** The verdict rule in the spec's words, for given tokens. *)
Inductive Verdict := Approved | Rejected | Ambiguous.

Definition spec_verdict (upper : str -> str) (approval rejection : str) (output : str)
  : Verdict :=
  let text := upper output in
  if Py.contains approval text && negb (Py.contains rejection text) then Approved
  else if Py.contains rejection text then Rejected
  else Ambiguous.

End Crew.


(* ===================================================================== *)
(** * Properties of the orchestrator                                      *)
(* ===================================================================== *)

Module CrewFacts.
Import Crew.

Lemma calls_app role a b : calls role (a ++ b) = calls role a ++ calls role b.
Proof. apply omap_app. Qed.

Lemma events_app a b : events (a ++ b) = events a ++ events b.
Proof. apply omap_app. Qed.

Lemma backtrackings_app a b : backtrackings (a ++ b) = backtrackings a ++ backtrackings b.
Proof. apply omap_app. Qed.

Section Run.
Variable upper : str -> str.
Variable sid : str.
Variable w : Workers.

Local Abbreviation verdict := (spec_verdict upper (lit "APROBADO") (lit "RECHAZADO")).

Ltac run_cycle :=
  unfold cycle, on_agent_start, on_agent_finish, on_backtracking, on_crew_finish,
    kickoff, _emit, get_handler, set_handler, mbind, M_bind, mret, M_ret.

(** One pass through the loop body, case by case. *)
Lemma cycle_spec (iteration : nat) (topic : str) (h : Handler) :
  let '(res, _, acts) := cycle upper sid w iteration topic h in
  calls Investigator acts = [investigation w iteration topic]
  /\ match investigation w iteration topic with
     | Raises e =>
       res = inl e /\ calls Analyst acts = [] /\ calls Writer acts = []
       /\ backtrackings acts = []
     | Ok ir =>
       calls Analyst acts = [analysis w iteration ir]
       /\ match analysis w iteration ir with
          | Raises e => res = inl e /\ calls Writer acts = [] /\ backtrackings acts = []
          | Ok ar =>
            match verdict ar with
            | Approved =>
              calls Writer acts = [writing w iteration ir ar]
              /\ backtrackings acts = []
              /\ match writing w iteration ir ar with
                 | Ok final_article =>
                   res = inr (Return {| status := lit "success";
                                        topic := topic;
                                        article := Some final_article;
                                        error := None;
                                        iterations := Some iteration;
                                        session_id := sid |})
                 | Raises e => res = inl e
                 end
            | Rejected =>
              calls Writer acts = []
              /\ if iteration <? MAX_ITERATIONS then
                   res = inr (Continue (topic ++ lit " (REFINAMIENTO: "
                                          ++ Py.slice_to 200 ar ++ lit ")"))
                   /\ backtrackings acts
                      = [backtracking (lit "Analista de Sesgos y Fact-Checker")
                                      (lit "Investigador de Noticias")
                                      (Py.slice_to 300 ar)]
                 else
                   res = inr (Return {| status := lit "error";
                                        topic := topic;
                                        article := None;
                                        error := Some (lit "Contenido rechazado después de "
                                                         ++ Py.of_int (Z.of_nat MAX_ITERATIONS)
                                                         ++ lit " intentos. Último feedback: "
                                                         ++ ar);
                                        iterations := None;
                                        session_id := sid |})
                   /\ backtrackings acts = []
            | Ambiguous =>
              calls Writer acts = [] /\ backtrackings acts = []
              /\ res = inr (Continue topic)
            end
          end
     end.
Proof.
  run_cycle. unfold spec_verdict.
  destruct (iteration <? MAX_ITERATIONS);
    (destruct (investigation w iteration topic) as [ir | e]; cbn;
      [| by repeat split]);
    (destruct (analysis w iteration ir) as [ar | e]; cbn; [| by repeat split]);
    destruct (Py.contains (lit "APROBADO") (upper ar));
    destruct (Py.contains (lit "RECHAZADO") (upper ar)); cbn;
    try (by repeat split);
    destruct (writing w iteration ir ar); cbn; by repeat split.
Qed.

Lemma except_handler_spec (e topic : str) (h : Handler) :
  exists agent,
    except_handler sid e topic h
    = (inr {| status := lit "error";
              topic := topic;
              article := None;
              error := Some (lit "Error durante ejecución de crew: " ++ e);
              iterations := None;
              session_id := sid |},
       h,
       [Emit (error_event agent (lit "Error durante ejecución de crew: " ++ e))]).
Proof. eexists. reflexivity. Qed.

Lemma while_loop_S fuel iteration topic h :
  while_loop upper sid w (S fuel) iteration topic h =
  if iteration <? MAX_ITERATIONS then
    match cycle upper sid w (S iteration) topic h with
    | (inl e, h1, acts) =>
      match except_handler sid e topic h1 with
      | (inr r, h2, acts') => (Some r, h2, acts ++ acts')
      | (inl _, h2, acts') => (None, h2, acts ++ acts')
      end
    | (inr (Return r), h1, acts) => (Some r, h1, acts)
    | (inr (Continue topic'), h1, acts) =>
      let '(r, h2, acts') := while_loop upper sid w fuel (S iteration) topic' h1 in
      (r, h2, acts ++ acts')
    end
  else (Some (exhausted sid topic), h, []).
Proof. reflexivity. Qed.

(** The two shapes of the returned dictionary. *)
Definition success_shape (r : RunResult) : Prop :=
  status r = lit "success" /\ (exists a, article r = Some a) /\ error r = None.
Definition error_shape (r : RunResult) : Prop :=
  status r = lit "error" /\ article r = None /\ (exists e, error r = Some e).

(** What the loop needs to know about one pass. *)
Lemma cycle_summary (iteration : nat) (topic : str) (h : Handler) :
  let '(res, _, acts) := cycle upper sid w iteration topic h in
  length (calls Investigator acts) = 1
  /\ match res with
     | inl _ => True
     | inr (Return r) =>
       (success_shape r /\ iterations r = Some iteration) \/
       (error_shape r /\ iterations r = None)
     | inr (Continue _) => True
     end.
Proof.
  pose proof (cycle_spec iteration topic h) as H.
  destruct (cycle upper sid w iteration topic h) as [[res h1] acts].
  destruct H as [-> H]. split; [done |].
  destruct (investigation w iteration topic) as [ir | e]; [| by destruct H as [-> _]].
  destruct H as [_ H].
  destruct (analysis w iteration ir) as [ar | e]; [| by destruct H as [-> _]].
  destruct (verdict ar).
  - destruct H as (_ & _ & H). destruct (writing w iteration ir ar); subst res; [| done].
    left. unfold success_shape; cbn. eauto.
  - destruct H as [_ H]. destruct (iteration <? MAX_ITERATIONS); destruct H as [-> _]; [done |].
    right. unfold error_shape; cbn. eauto.
  - by destruct H as (_ & _ & ->).
Qed.

(** With enough fuel the loop returns; it runs at most the iterations that
    remain and at least one if any remains; what it returns has one of the
    two shapes. *)
Lemma while_loop_spec (fuel iteration : nat) (topic : str) (h : Handler) :
  MAX_ITERATIONS - iteration < fuel ->
  let '(r, _, acts) := while_loop upper sid w fuel iteration topic h in
  exists res, r = Some res
    /\ length (calls Investigator acts) <= MAX_ITERATIONS - iteration
    /\ (iteration < MAX_ITERATIONS -> 1 <= length (calls Investigator acts))
    /\ (forall n, iterations res = Some n ->
           n = iteration + length (calls Investigator acts))
    /\ (success_shape res \/ error_shape res).
Proof.
  revert iteration topic h.
  induction fuel as [|fuel IH]; intros iteration topic h Hfuel; [lia |].
  rewrite while_loop_S.
  destruct (iteration <? MAX_ITERATIONS) eqn:Hlt.
  - apply Nat.ltb_lt in Hlt.
    pose proof (cycle_summary (S iteration) topic h) as Hc.
    destruct (cycle upper sid w (S iteration) topic h) as [[[e | [r | topic']] h1] acts].
    + destruct (except_handler_spec e topic h1) as [agent ->].
      destruct Hc as [Hc _]. eexists; split; [done |].
      rewrite calls_app, length_app, Hc. cbn.
      split; [lia |]. split; [lia |]. split; [done |].
      right. unfold error_shape; cbn. eauto.
    + destruct Hc as [Hc Hr]. eexists; split; [done |]. rewrite Hc.
      split; [lia |]. split; [lia |]. split.
      * intros n Hn. destruct Hr as [[_ Hi] | [_ Hi]]; rewrite Hi in Hn; [| done].
        inversion Hn; lia.
      * destruct Hr as [[? _] | [? _]]; eauto.
    + destruct Hc as [Hc _].
      specialize (IH (S iteration) topic' h1 ltac:(lia)).
      destruct (while_loop upper sid w fuel (S iteration) topic' h1) as [[r h2] acts'].
      destruct IH as (res & -> & Hle & _ & Hn & Hshape).
      exists res; split; [done |].
      rewrite calls_app, length_app, Hc.
      split; [lia |]. split; [lia |]. split; [| done].
      intros n Hi. specialize (Hn n Hi). lia.
  - apply Nat.ltb_ge in Hlt.
    eexists; split; [done |]. cbn.
    split; [lia |]. split; [lia |]. split; [done |].
    right. unfold error_shape, exhausted; cbn. eauto.
Qed.

(** The analyst is called at most once per cycle. *)
Lemma while_loop_analyst (fuel iteration : nat) (topic : str) (h : Handler) :
  let '(_, _, acts) := while_loop upper sid w fuel iteration topic h in
  length (calls Analyst acts) <= length (calls Investigator acts).
Proof.
  revert iteration topic h.
  induction fuel as [|fuel IH]; intros iteration topic h; [cbn; lia |].
  rewrite while_loop_S.
  destruct (iteration <? MAX_ITERATIONS); [| cbn; lia].
  pose proof (cycle_spec (S iteration) topic h) as Hc.
  destruct (cycle upper sid w (S iteration) topic h) as [[res h1] acts].
  destruct Hc as [Hinv Hc].
  assert (Hcyc : length (calls Analyst acts) <= 1).
  { destruct (investigation w (S iteration) topic).
    - destruct Hc as [-> _]. cbn; lia.
    - destruct Hc as (_ & -> & _). cbn; lia. }
  destruct res as [e | [r | topic']].
  - destruct (except_handler_spec e topic h1) as [agent ->].
    rewrite !calls_app, !length_app, Hinv. cbn. lia.
  - rewrite Hinv. cbn. lia.
  - specialize (IH (S iteration) topic' h1).
    destruct (while_loop upper sid w fuel (S iteration) topic' h1) as [[r h2] acts'].
    rewrite !calls_app, !length_app, Hinv. cbn. lia.
Qed.

(** The article of the returned dictionary is what the last call to the
    writer returned. *)
Lemma while_loop_article (fuel iteration : nat) (topic : str) (h : Handler) :
  let '(r, _, acts) := while_loop upper sid w fuel iteration topic h in
  forall res a, r = Some res -> article res = Some a ->
    last (calls Writer acts) = Some (Ok a).
Proof.
  revert iteration topic h.
  induction fuel as [|fuel IH]; intros iteration topic h; [done |].
  rewrite while_loop_S.
  destruct (iteration <? MAX_ITERATIONS); [| by intros res a [= <-]].
  pose proof (cycle_spec (S iteration) topic h) as Hc.
  destruct (cycle upper sid w (S iteration) topic h) as [[res h1] acts].
  destruct Hc as [_ Hc].
  destruct res as [e | [r | topic']].
  - destruct (except_handler_spec e topic h1) as [agent ->].
    by intros res a [= <-].
  - intros res a [= <-] Hart.
    destruct (investigation w (S iteration) topic) as [ir | e]; [| by destruct Hc].
    destruct Hc as [_ Hc].
    destruct (analysis w (S iteration) ir) as [ar | e]; [| by destruct Hc].
    destruct (verdict ar).
    + destruct Hc as (-> & _ & Hc).
      destruct (writing w (S iteration) ir ar); [| done].
      inversion Hc; subst r. cbn in Hart. by inversion Hart.
    + destruct Hc as [_ Hc]. destruct (S iteration <? MAX_ITERATIONS); destruct Hc as [Hc _];
        [done |]. inversion Hc; subst r. done.
    + by destruct Hc as (_ & _ & ?).
  - specialize (IH (S iteration) topic' h1).
    destruct (while_loop upper sid w fuel (S iteration) topic' h1) as [[r h2] acts'].
    intros res a Hr Hart. specialize (IH res a Hr Hart).
    rewrite calls_app.
    destruct (calls Writer acts') as [|k ks] eqn:E; [done |].
    rewrite last_app. by rewrite IH.
Qed.

(** If every remaining iteration gets a Rejected verdict, the loop returns
    the rejection error built from the last feedback, and the writer is
    never called. *)
Lemma while_loop_all_rejected (fuel iteration : nat) (topic : str) (h : Handler)
    (ars : list str) :
  MAX_ITERATIONS - iteration < fuel ->
  iteration < MAX_ITERATIONS ->
  iteration + length ars = MAX_ITERATIONS ->
  Forall (fun a => verdict a = Rejected) ars ->
  let '(r, _, acts) := while_loop upper sid w fuel iteration topic h in
  calls Analyst acts = Ok <$> ars ->
  exists res last_feedback,
    r = Some res
    /\ last ars = Some last_feedback
    /\ status res = lit "error"
    /\ error res = Some (lit "Contenido rechazado después de "
                           ++ Py.of_int (Z.of_nat MAX_ITERATIONS)
                           ++ lit " intentos. Último feedback: "
                           ++ last_feedback)
    /\ article res = None
    /\ calls Writer acts = [].
Proof.
  revert iteration topic h ars.
  induction fuel as [|fuel IH]; intros iteration topic h ars Hfuel Hit Hlen Hrej; [lia |].
  rewrite while_loop_S.
  destruct (iteration <? MAX_ITERATIONS) eqn:Hlt; [| apply Nat.ltb_ge in Hlt; lia].
  pose proof (cycle_spec (S iteration) topic h) as Hc.
  destruct (cycle upper sid w (S iteration) topic h) as [[res h1] acts].
  destruct Hc as [_ Hc].
  destruct (investigation w (S iteration) topic) as [ir | e].
  2:{ destruct Hc as (-> & Ha & _).
      destruct (except_handler_spec e topic h1) as [agent ->].
      rewrite calls_app, Ha. cbn. intros Hars.
      destruct ars; [cbn in Hlen; lia | done]. }
  destruct Hc as [Ha Hc].
  destruct (analysis w (S iteration) ir) as [ar | e].
  2:{ destruct Hc as (-> & _).
      destruct (except_handler_spec e topic h1) as [agent ->].
      rewrite calls_app, Ha. cbn. intros Hars.
      destruct ars; [cbn in Hlen; lia | done]. }
  destruct (verdict ar) eqn:Hv.
  - (* Approved: the analyst's output is the head of [ars], which is Rejected *)
    assert (Hhead : calls Analyst acts = [Ok ar] ->
                    forall rest, calls Analyst (acts ++ rest) = Ok <$> ars -> False).
    { intros Hcalls rest. rewrite calls_app, Hcalls. intros Hars.
      destruct ars as [|a ars']; [done |]. inversion Hars; subst a.
      inversion Hrej; congruence. }
    destruct Hc as (_ & _ & Hc).
    destruct (writing w (S iteration) ir ar); subst res.
    + intros Hars. exfalso. apply (Hhead Ha []). by rewrite app_nil_r.
    + destruct (except_handler_spec e topic h1) as [agent ->].
      intros Hars. exfalso. by apply (Hhead Ha _ Hars).
  - destruct Hc as [Hw Hc].
    destruct (S iteration <? MAX_ITERATIONS) eqn:Hnext.
    + apply Nat.ltb_lt in Hnext. destruct Hc as [-> _].
      specialize (IH (S iteration)
                    (topic ++ lit " (REFINAMIENTO: " ++ Py.slice_to 200 ar ++ lit ")")
                    h1 (tail ars) ltac:(lia) Hnext).
      destruct ars as [|a ars']; [cbn in Hlen; lia |].
      cbn in IH, Hlen. specialize (IH ltac:(lia) ltac:(by inversion Hrej)).
      destruct (while_loop upper sid w fuel (S iteration) _ h1) as [[r h2] acts'].
      rewrite !calls_app, Ha, Hw. cbn. intros Hars. inversion Hars; subst a.
      destruct (IH ltac:(done)) as (res & fb & -> & Hlast & Hrest).
      exists res, fb. split; [done |]. split; [| done].
      destruct ars'; [done | by rewrite last_cons_cons].
    + apply Nat.ltb_ge in Hnext. destruct Hc as [-> _].
      rewrite Ha. intros Hars.
      destruct ars as [|a ars']; [done |]. inversion Hars; subst a.
      destruct ars' as [|? ?]; [| done].
      eexists _, ar. by repeat split.
  - (* Ambiguous: same contradiction *)
    destruct Hc as (_ & _ & ->).
    destruct (while_loop upper sid w fuel (S iteration) topic h1) as [[r h2] acts'].
    rewrite calls_app, Ha. intros Hars.
    destruct ars as [|a ars']; [done |]. inversion Hars; subst a.
    inversion Hrej; congruence.
Qed.

(** C1.  The branch the loop body takes on a Validator output is the one
    the spec's rule names, with the tokens APROBADO and RECHAZADO of the
    source: Approved, and the Composer (writer) is invoked; Rejected, and the
    body backtracks or returns the rejection error; Ambiguous, and the body
    just goes on to the next pass. *)
Theorem verdict_rule_followed (iteration : nat) (topic : str) (h : Handler)
    (ir ar : str) :
  investigation w iteration topic = Ok ir ->
  analysis w iteration ir = Ok ar ->
  let '(res, _, acts) := cycle upper sid w iteration topic h in
  match spec_verdict upper (lit "APROBADO") (lit "RECHAZADO") ar with
  | Approved =>
    calls Writer acts = [writing w iteration ir ar]
    /\ match writing w iteration ir ar with
       | Ok final_article =>
         exists r, res = inr (Return r) /\ status r = lit "success"
                   /\ article r = Some final_article
       | Raises e => res = inl e
       end
  | Rejected =>
    calls Writer acts = []
    /\ if iteration <? MAX_ITERATIONS then
         res = inr (Continue (topic ++ lit " (REFINAMIENTO: "
                                ++ Py.slice_to 200 ar ++ lit ")"))
         /\ backtrackings acts <> []
       else
         exists r, res = inr (Return r) /\ status r = lit "error"
                   /\ error r = Some (lit "Contenido rechazado después de "
                                        ++ Py.of_int (Z.of_nat MAX_ITERATIONS)
                                        ++ lit " intentos. Último feedback: "
                                        ++ ar)
  | Ambiguous =>
    calls Writer acts = [] /\ backtrackings acts = []
    /\ res = inr (Continue topic)
  end.
Proof.
  intros Hi Ha.
  pose proof (cycle_spec iteration topic h) as H.
  destruct (cycle upper sid w iteration topic h) as [[res h1] acts].
  rewrite Hi, Ha in H. destruct H as (_ & _ & H).
  destruct (spec_verdict upper (lit "APROBADO") (lit "RECHAZADO") ar).
  - destruct H as (Hw & _ & H). split; [done |].
    destruct (writing w iteration ir ar); [| done]. eexists. by repeat split.
  - destruct H as [Hw H]. split; [done |].
    destruct (iteration <? MAX_ITERATIONS).
    + destruct H as [-> ->]. done.
    + destruct H as [-> _]. eexists. by repeat split.
  - done.
Qed.

(** C2, as amended.  While iterations remain, a Rejected verdict publishes
    one backtrack event carrying the first 300 characters of the feedback and
    the loop goes on with the topic amended by its first 200 characters; an
    Ambiguous verdict makes the loop go on as well, but with the topic
    unchanged and without a backtrack event.  In both cases the writer is
    not called in that pass. *)
Theorem rejected_backtracks_ambiguous_retries (fuel i : nat) (topic : str)
    (h : Handler) (ir ar : str) :
  investigation w (S i) topic = Ok ir ->
  analysis w (S i) ir = Ok ar ->
  S i < MAX_ITERATIONS ->
  let '(_, h1, acts) := cycle upper sid w (S i) topic h in
  match spec_verdict upper (lit "APROBADO") (lit "RECHAZADO") ar with
  | Rejected =>
    backtrackings acts = [backtracking (lit "Analista de Sesgos y Fact-Checker")
                                       (lit "Investigador de Noticias")
                                       (Py.slice_to 300 ar)]
    /\ calls Writer acts = []
    /\ while_loop upper sid w (S fuel) i topic h
       = (let '(r, h2, acts') :=
            while_loop upper sid w fuel (S i)
              (topic ++ lit " (REFINAMIENTO: " ++ Py.slice_to 200 ar ++ lit ")") h1 in
          (r, h2, acts ++ acts'))
  | Ambiguous =>
    backtrackings acts = []
    /\ calls Writer acts = []
    /\ while_loop upper sid w (S fuel) i topic h
       = (let '(r, h2, acts') := while_loop upper sid w fuel (S i) topic h1 in
          (r, h2, acts ++ acts'))
  | Approved => True
  end.
Proof.
  intros Hi Ha Hlt.
  rewrite while_loop_S.
  replace (i <? MAX_ITERATIONS) with true by (symmetry; apply Nat.ltb_lt; lia).
  pose proof (cycle_spec (S i) topic h) as H.
  destruct (cycle upper sid w (S i) topic h) as [[res h1] acts].
  rewrite Hi, Ha in H. destruct H as (_ & _ & H).
  destruct (spec_verdict upper (lit "APROBADO") (lit "RECHAZADO") ar); [done | |].
  - replace (S i <? MAX_ITERATIONS) with true in H by (symmetry; by apply Nat.ltb_lt).
    by destruct H as (? & -> & ?).
  - by destruct H as (? & ? & ->).
Qed.

(** A call of [run] always returns, after at least one and at most
    MAX_ITERATIONS = 3 research/validate cycles; on success the
    [iterations] field is the number of cycles run. *)
Lemma run_terminates_within_bound (topic : str) (h : Handler) :
  exists r h' acts,
    run upper sid w topic h = (Some r, h', acts)
    /\ 1 <= length (calls Investigator acts) <= MAX_ITERATIONS
    /\ length (calls Analyst acts) <= length (calls Investigator acts)
    /\ MAX_ITERATIONS = 3
    /\ (forall n, iterations r = Some n -> n = length (calls Investigator acts)).
Proof.
  unfold run.
  pose proof (while_loop_spec (S MAX_ITERATIONS) 0 topic h ltac:(lia)) as H.
  pose proof (while_loop_analyst (S MAX_ITERATIONS) 0 topic h) as Ha.
  destruct (while_loop upper sid w (S MAX_ITERATIONS) 0 topic h) as [[r h'] acts].
  destruct H as (res & -> & Hle & Hge & Hn & _).
  exists res, h', acts. split; [done |].
  split; [unfold MAX_ITERATIONS in *; lia |].
  split; [done |]. split; [done |].
  intros n Hi. by rewrite (Hn n Hi).
Qed.

(** C4.  When the Validator is called MAX_ITERATIONS times and each output
    is Rejected, the run ends with status "error", the error message ends
    with the feedback of the last iteration, there is no article, and the
    writer is never called. *)
Theorem all_rejected_fails_without_composer (topic : str) (h : Handler)
    (ars : list str) :
  calls Analyst (run upper sid w topic h).2 = Ok <$> ars ->
  length ars = MAX_ITERATIONS ->
  Forall (fun a => spec_verdict upper (lit "APROBADO") (lit "RECHAZADO") a = Rejected)
         ars ->
  exists res last_feedback,
    (run upper sid w topic h).1.1 = Some res
    /\ last ars = Some last_feedback
    /\ status res = lit "error"
    /\ error res = Some (lit "Contenido rechazado después de "
                           ++ Py.of_int (Z.of_nat MAX_ITERATIONS)
                           ++ lit " intentos. Último feedback: "
                           ++ last_feedback)
    /\ article res = None
    /\ calls Writer (run upper sid w topic h).2 = [].
Proof.
  unfold run. intros Hcalls Hlen Hrej.
  pose proof (while_loop_all_rejected (S MAX_ITERATIONS) 0 topic h ars
                ltac:(lia) ltac:(unfold MAX_ITERATIONS; lia) ltac:(lia) Hrej) as H.
  destruct (while_loop upper sid w (S MAX_ITERATIONS) 0 topic h) as [[r h'] acts].
  cbn in Hcalls |- *. by apply H.
Qed.

(** C7, as amended.  A returned dictionary with status "success" has an
    article, which is the writer's output as returned, and no error; one with
    status "error" has an error and no article; there is no other status. *)
Theorem result_shape (topic : str) (h : Handler) :
  exists r h' acts,
    run upper sid w topic h = (Some r, h', acts)
    /\ (status r = lit "success" \/ status r = lit "error")
    /\ (status r = lit "success" ->
          (exists final_article, article r = Some final_article
             /\ last (calls Writer acts) = Some (Ok final_article))
          /\ error r = None)
    /\ (status r = lit "error" ->
          (exists e, error r = Some e) /\ article r = None).
Proof.
  unfold run.
  pose proof (while_loop_spec (S MAX_ITERATIONS) 0 topic h ltac:(lia)) as H.
  pose proof (while_loop_article (S MAX_ITERATIONS) 0 topic h) as Hart.
  destruct (while_loop upper sid w (S MAX_ITERATIONS) 0 topic h) as [[r h'] acts].
  destruct H as (res & -> & _ & _ & _ & Hshape).
  exists res, h', acts. split; [done |].
  assert (Hne : lit "success" <> lit "error") by (vm_compute; discriminate).
  destruct Hshape as [(Hs & [a Ha] & He) | (Hs & Ha & He)].
  - split; [by left |]. split.
    + intros _. split; [| done]. exists a. split; [done |]. by apply (Hart res a).
    + intros Hs'. congruence.
  - split; [by right |]. split.
    + intros Hs'. congruence.
    + done.
Qed.
End Run.

(** ** Concrete runs *)

Definition h0 : Handler := {| current_agent := None; task_counter := 0 |}.

(** The validator approves at once. *)
Definition approving : Workers :=
  {| investigation := fun _ _ => Ok (lit "informe");
     analysis := fun _ _ => Ok (lit "VEREDICTO: APROBADO");
     writing := fun _ _ _ => Ok (lit "# Titular") |}.

(** The validator rejects every report. *)
Definition rejecting : Workers :=
  {| investigation := fun _ _ => Ok (lit "informe");
     analysis := fun _ _ => Ok (lit "VEREDICTO: RECHAZADO, falta fuente oficial");
     writing := fun _ _ _ => Ok (lit "# Titular") |}.

(** The validator never gives a verdict; the researcher echoes its topic. *)
Definition undecided : Workers :=
  {| investigation := fun _ topic => Ok topic;
     analysis := fun _ _ => Ok (lit "sin veredicto claro");
     writing := fun _ _ _ => Ok (lit "# Titular") |}.

(** The validator approves and the writer returns the empty text. *)
Definition silent_writer : Workers :=
  {| investigation := fun _ _ => Ok (lit "informe");
     analysis := fun _ _ => Ok (lit "VEREDICTO: APROBADO");
     writing := fun _ _ _ => Ok [] |}.

(** Scenario 1 of the spec. *)
Example scenario_approved :
  spec_verdict Py.ascii_upper (lit "APROBADO") (lit "RECHAZADO")
    (lit "VEREDICTO: APROBADO") = Approved.
Proof. reflexivity. Qed.

(** Scenario 2 of the spec. *)
Example scenario_rejected :
  spec_verdict Py.ascii_upper (lit "APROBADO") (lit "RECHAZADO")
    (lit "VEREDICTO: RECHAZADO, falta fuente oficial") = Rejected.
Proof. reflexivity. Qed.

(** An output naming both tokens is Rejected. *)
Example scenario_both_tokens :
  spec_verdict Py.ascii_upper (lit "APROBADO") (lit "RECHAZADO")
    (lit "no aprobado: rechazado") = Rejected.
Proof. reflexivity. Qed.

Lemma verdict_rule_followed_witness :
  investigation approving 1 (lit "IA") = Ok (lit "informe")
  /\ analysis approving 1 (lit "informe") = Ok (lit "VEREDICTO: APROBADO")
  /\ (let '(res, _, acts) := cycle Py.ascii_upper (lit "s1") approving 1 (lit "IA") h0 in
      calls Writer acts = [Ok (lit "# Titular")]
      /\ exists r, res = inr (Return r) /\ status r = lit "success"
                   /\ article r = Some (lit "# Titular")).
Proof.
  split; [reflexivity |]. split; [reflexivity |].
  exact (verdict_rule_followed Py.ascii_upper (lit "s1") approving 1 (lit "IA") h0
           (lit "informe") (lit "VEREDICTO: APROBADO") eq_refl eq_refl).
Defined.

(** C2, as stated, fails: on an Ambiguous verdict with iterations remaining no
    backtrack event is published and the topic is not amended; the next
    cycles research the very same topic, and the run ends with the
    "no approval" error of the code after the loop. *)
Lemma ambiguous_is_not_backtracked :
  let topic := lit "IA" in
  let feedback := lit "sin veredicto claro" in
  spec_verdict Py.ascii_upper (lit "APROBADO") (lit "RECHAZADO") feedback = Ambiguous
  /\ 1 < MAX_ITERATIONS
  /\ (let '(res, _, acts) := cycle Py.ascii_upper (lit "s1") undecided 1 topic h0 in
      backtrackings acts = []
      /\ res = inr (Continue topic)
      /\ res <> inr (Continue (topic ++ lit " (REFINAMIENTO: "
                                 ++ Py.slice_to 200 feedback ++ lit ")")))
  /\ (let '(r, _, acts) := run Py.ascii_upper (lit "s1") undecided topic h0 in
      backtrackings acts = []
      /\ calls Investigator acts = [Ok topic; Ok topic; Ok topic]
      /\ (error <$> r)
         = Some (Some (lit "No se logró aprobación después de 3 iteraciones"))).
Proof.
  cbn zeta. split; [reflexivity |]. split; [unfold MAX_ITERATIONS; lia |].
  split; vm_compute; repeat split; discriminate.
Qed.

Lemma rejected_backtracks_ambiguous_retries_witness :
  investigation rejecting 1 (lit "IA") = Ok (lit "informe")
  /\ analysis rejecting 1 (lit "informe")
     = Ok (lit "VEREDICTO: RECHAZADO, falta fuente oficial")
  /\ 1 < MAX_ITERATIONS
  /\ (let '(_, h1, acts) := cycle Py.ascii_upper (lit "s1") rejecting 1 (lit "IA") h0 in
      backtrackings acts
      = [backtracking (lit "Analista de Sesgos y Fact-Checker")
                      (lit "Investigador de Noticias")
                      (lit "VEREDICTO: RECHAZADO, falta fuente oficial")]
      /\ calls Writer acts = []
      /\ while_loop Py.ascii_upper (lit "s1") rejecting 4 0 (lit "IA") h0
         = (let '(r, h2, acts') :=
              while_loop Py.ascii_upper (lit "s1") rejecting 3 1
                (lit "IA (REFINAMIENTO: VEREDICTO: RECHAZADO, falta fuente oficial)") h1 in
            (r, h2, acts ++ acts'))).
Proof.
  split; [reflexivity |]. split; [reflexivity |].
  split; [unfold MAX_ITERATIONS; lia |].
  exact (rejected_backtracks_ambiguous_retries Py.ascii_upper (lit "s1") rejecting
           3 0 (lit "IA") h0 (lit "informe")
           (lit "VEREDICTO: RECHAZADO, falta fuente oficial") eq_refl eq_refl
           ltac:(unfold MAX_ITERATIONS; lia)).
Defined.

Lemma all_rejected_fails_without_composer_witness :
  let feedback := lit "VEREDICTO: RECHAZADO, falta fuente oficial" in
  let result := run Py.ascii_upper (lit "s1") rejecting (lit "IA") h0 in
  calls Analyst result.2 = Ok <$> [feedback; feedback; feedback]
  /\ exists res last_feedback,
       result.1.1 = Some res
       /\ last [feedback; feedback; feedback] = Some last_feedback
       /\ status res = lit "error"
       /\ error res = Some (lit "Contenido rechazado después de "
                              ++ Py.of_int (Z.of_nat MAX_ITERATIONS)
                              ++ lit " intentos. Último feedback: "
                              ++ last_feedback)
       /\ article res = None
       /\ calls Writer result.2 = [].
Proof.
  cbn zeta. split; [vm_compute; reflexivity |].
  apply (all_rejected_fails_without_composer Py.ascii_upper (lit "s1") rejecting
           (lit "IA") h0).
  - vm_compute; reflexivity.
  - reflexivity.
  - repeat constructor.
Defined.

(** C7, as stated, fails: when the writer returns the empty text the run
    returns status "success" with an empty article. *)
Lemma success_with_empty_article :
  let '(r, _, acts) := run Py.ascii_upper (lit "s1") silent_writer (lit "IA") h0 in
  calls Writer acts = [Ok []]
  /\ (status <$> r) = Some (lit "success")
  /\ (article <$> r) = Some (Some [])
  /\ (error <$> r) = Some None.
Proof. vm_compute. by repeat split. Qed.

End CrewFacts.

(* ===================================================================== *)
(** * app.py: the submission endpoint                                     *)
(* ===================================================================== *)

Module App.

#[local] Set Warnings "-register-all".

(** A parsed JSON body. *)
Inductive Json :=
| JNull
| JBool (b : bool)
| JNum (q : Q)
| JStr (s : str)
| JArr (items : list Json)
| JObj (items : list (str * Json)).

(** Exceptions the handler can meet; all are caught by [except Exception]. *)
Inductive Exn :=
| BadRequest          (* raised by [get_json] on a body that is not JSON *)
| TypeError           (* ["topic" in data] or [data["topic"]] on a wrong type *)
| KeyError
| AttributeError.     (* [.strip()] on a value that is not a string *)

(** [str.strip()] *)
Fixpoint lstrip (s : str) : str :=
  match s with
  | [] => []
  | c :: s' => if Py.isspace c then lstrip s' else s
  end.
Definition rstrip (s : str) : str := reverse (lstrip (reverse s)).
Definition strip (s : str) : str := rstrip (lstrip s).

(** Truth value of a Python object, for [not data]. *)
Definition truthy (j : Json) : bool :=
  match j with
  | JNull => false
  | JBool b => b
  | JNum q => negb (Qeq_bool q 0)
  | JStr s => negb (bool_decide (s = []))
  | JArr items => negb (bool_decide (length items = 0))
  | JObj items => negb (bool_decide (length items = 0))
  end.

Fixpoint lookup_key (k : str) (items : list (str * Json)) : option Json :=
  match items with
  | [] => None
  | (k', v) :: rest => if bool_decide (k' = k) then Some v else lookup_key k rest
  end.

(** ["topic" in data] *)
Definition topic_in (data : Json) : Exn + bool :=
  match data with
  | JObj items => inr (bool_decide (is_Some (lookup_key (lit "topic") items)))
  | JArr items =>
    inr (existsb (fun j => match j with
                           | JStr s => bool_decide (s = lit "topic")
                           | _ => false
                           end) items)
  | JStr s => inr (Py.contains (lit "topic") s)
  | JNull | JBool _ | JNum _ => inl TypeError
  end.

(** [data["topic"]] *)
Definition getitem_topic (data : Json) : Exn + Json :=
  match data with
  | JObj items =>
    match lookup_key (lit "topic") items with
    | Some v => inr v
    | None => inl KeyError
    end
  | _ => inl TypeError
  end.

(** [value.strip()] *)
Definition strip_method (value : Json) : Exn + str :=
  match value with
  | JStr s => inr (strip s)
  | _ => inl AttributeError
  end.

(** An entry of [active_sessions]. *)
Record SessionInfo := { topic : str; started_at : str; status : str }.

(** The module-level state the endpoint touches, and the threads started. *)
Record State := {
  active_sessions : gmap str SessionInfo;
  threads : list (str * str)          (* arguments of [run_crew_async] *)
}.

(** The JSON replies with their HTTP status. *)
Inductive Reply :=
| Refused (message : str)             (* 400, status "error" *)
| Failed (e : Exn)                    (* 500, status "error", message [str(e)] *)
| Started (session_id topic : str).   (* 202, status "started" *)

Definition http_status (r : Reply) : Z :=
  match r with
  | Refused _ => 400
  | Failed _ => 500
  | Started _ _ => 202
  end.

Definition reply_session_id (r : Reply) : option str :=
  match r with
  | Started session_id _ => Some session_id
  | _ => None
  end.

(** The double quote character. *)
Definition dquote : str := [34%N].

(** [generate_article()].  [body] is what [flask_request.get_json()] does,
    [uuid] the value of [str(uuid.uuid4())], [now] that of
    [datetime.now().isoformat()]. *)
Definition generate_article (body : Exn + Json) (uuid now : str) (st : State)
  : Reply * State :=
  match body with
  | inl e => (Failed e, st)
  | inr data =>
    if negb (truthy data) then
      (Refused (lit "Campo " ++ dquote ++ lit "topic" ++ dquote
                  ++ lit " requerido en el body"), st)
    else
      match topic_in data with
      | inl e => (Failed e, st)
      | inr false =>
        (Refused (lit "Campo " ++ dquote ++ lit "topic" ++ dquote
                    ++ lit " requerido en el body"), st)
      | inr true =>
        match getitem_topic data with
        | inl e => (Failed e, st)
        | inr value =>
          match strip_method value with
          | inl e => (Failed e, st)
          | inr topic =>
            if bool_decide (topic = []) then
              (Refused (lit "El tema no puede estar vacío"), st)
            else
              let session_id := uuid in
              let st :=
                {| active_sessions :=
                     <[session_id := {| topic := topic; started_at := now;
                                        status := lit "running" |}]>
                       (active_sessions st);
                   threads := threads st ++ [(topic, session_id)] |} in
              (Started session_id topic, st)
          end
        end
      end
  end.

(** The topic of a well-formed request [{topic: string}], if it is one. *)
Definition submitted_topic (body : Exn + Json) : option str :=
  match body with
  | inr (JObj items) =>
    match lookup_key (lit "topic") items with
    | Some (JStr s) => Some s
    | _ => None
    end
  | _ => None
  end.

End App.

(* ===================================================================== *)
(** * Properties of the submission endpoint                               *)
(* ===================================================================== *)

Module AppFacts.
Import App.

Abbreviation blank s := (Forall (fun c => Py.isspace c = true) s).
Abbreviation has_text s := (Exists (fun c => Py.isspace c = false) s).

Lemma lstrip_blank (s : str) : blank s -> lstrip s = [].
Proof. induction 1 as [|c s Hc _ IH]; cbn; [done |]. by rewrite Hc. Qed.

Lemma strip_blank (s : str) : blank s -> strip s = [].
Proof. intros H. unfold strip. by rewrite (lstrip_blank s H). Qed.

Lemma lstrip_has_text (s : str) : has_text s -> has_text (lstrip s).
Proof.
  induction s as [|c s IH]; intros H; [by inversion H |].
  cbn. destruct (Py.isspace c) eqn:Hc.
  - apply IH. inversion H; [congruence | done].
  - by left.
Qed.

Lemma strip_has_text (s : str) : has_text s -> strip s <> [].
Proof.
  intros H. unfold strip, rstrip.
  assert (H1 : has_text (reverse (lstrip s))).
  { apply lstrip_has_text in H. apply Exists_exists in H as (c & Hin & Hc).
    apply Exists_exists. exists c. split; [| done]. by apply elem_of_reverse. }
  apply lstrip_has_text in H1.
  destruct (lstrip (reverse (lstrip s))) as [|c l]; [by inversion H1 |].
  rewrite reverse_cons. by destruct (reverse l).
Qed.

Lemma submitted_topic_inv (body : Exn + Json) (s : str) :
  submitted_topic body = Some s ->
  exists items, body = inr (JObj items) /\ lookup_key (lit "topic") items = Some (JStr s).
Proof.
  destruct body as [e | [| | | | |items]]; try done. cbn.
  destruct (lookup_key (lit "topic") items) as [[| | | s' | |]|] eqn:E; try done.
  intros [= ->]. by exists items.
Qed.

(** The JSON objects without a topic or with a blank one. *)
Definition no_topic_text (body : Exn + Json) : Prop :=
  exists items, body = inr (JObj items)
    /\ (lookup_key (lit "topic") items = None
        \/ exists s, lookup_key (lit "topic") items = Some (JStr s) /\ blank s).

(** A session is started only for a request [{topic: string}] whose
    stripped topic is not empty; every other request leaves the state as it
    is. *)
Lemma generate_article_cases (body : Exn + Json) (uuid now : str) (st : State) :
  (exists s, submitted_topic body = Some s /\ strip s <> []
             /\ generate_article body uuid now st
                = (Started uuid (strip s),
                   {| active_sessions :=
                        <[uuid := {| topic := strip s; started_at := now;
                                     status := lit "running" |}]> (active_sessions st);
                      threads := threads st ++ [(strip s, uuid)] |}))
  \/ (exists reply, generate_article body uuid now st = (reply, st)
        /\ reply_session_id reply = None
        /\ (http_status reply = 400%Z
            \/ (http_status reply = 500%Z /\ ~ no_topic_text body))
        /\ forall s, submitted_topic body = Some s -> strip s = []).
Proof.
  unfold generate_article.
  destruct body as [e | data].
  { right. eexists. repeat split; [| done].
    right. split; [done |]. by intros (items & ? & _). }
  destruct (truthy data) eqn:Htruthy; cbn [negb].
  2:{ right. eexists. repeat split; [by left |].
      intros s (items & [= ->] & Hl)%submitted_topic_inv.
      cbn in Htruthy. by destruct items. }
  destruct (topic_in data) as [e | [|]] eqn:Hin.
  { right. eexists. repeat split.
    - right. split; [done |]. by intros (items & [= ->] & _).
    - by intros s (items & [= ->] & Hl)%submitted_topic_inv. }
  2:{ right. eexists. repeat split; [by left |].
      intros s (items & [= ->] & Hl)%submitted_topic_inv.
      cbn in Hin. rewrite Hl in Hin. inversion Hin. }
  destruct (getitem_topic data) as [e | value] eqn:Hget.
  { right. eexists. repeat split.
    - right. split; [done |]. intros (items & [= ->] & Hcase).
      cbn in Hin, Hget.
      destruct (lookup_key (lit "topic") items); [done | inversion Hin].
    - intros s (items & [= ->] & Hl)%submitted_topic_inv.
      cbn in Hget. by rewrite Hl in Hget. }
  destruct (strip_method value) as [e | topic] eqn:Hstrip.
  { right. eexists. repeat split.
    - right. split; [done |]. intros (items & [= ->] & Hcase).
      cbn in Hin, Hget.
      destruct Hcase as [Hl | (s & Hl & _)]; rewrite Hl in Hget; [done |].
      inversion Hget; subst value. done.
    - intros s (items & [= ->] & Hl)%submitted_topic_inv.
      cbn in Hget. rewrite Hl in Hget. inversion Hget; subst value. done. }
  assert (Hsub : exists s, submitted_topic (inr data) = Some s /\ topic = strip s).
  { destruct data as [| | | | |items]; try done. cbn in Hget |- *.
    destruct (lookup_key (lit "topic") items) as [v|]; [| done].
    inversion Hget; subst v. destruct value; try done.
    cbn in Hstrip. inversion Hstrip. by eexists. }
  destruct Hsub as (s & Hs & ->).
  case_bool_decide as Hempty.
  - right. eexists. repeat split; [by left |].
    intros s' Hs'. congruence.
  - left. exists s. by repeat split.
Qed.

(** C8.  A request whose topic is missing, is not a string, is empty or is
    made of whitespace only is rejected: the reply carries an error status
    and no session id, and the registry (and the set of threads) is
    unchanged; for a JSON object without topic or with a blank topic the
    status is 400.  A request with a topic that holds some text is answered
    202 with the fresh session id, and the session is registered as
    running. *)
Theorem submission_rejects_empty_topic (body : Exn + Json) (uuid now : str) (st : State) :
  let '(reply, st') := generate_article body uuid now st in
  ((submitted_topic body = None
    \/ exists s, submitted_topic body = Some s /\ blank s) ->
   st' = st
   /\ reply_session_id reply = None
   /\ (http_status reply = 400%Z \/ http_status reply = 500%Z))
  /\ (no_topic_text body -> http_status reply = 400%Z)
  /\ (forall s, submitted_topic body = Some s -> has_text s ->
        reply = Started uuid (strip s)
        /\ http_status reply = 202%Z
        /\ reply_session_id reply = Some uuid
        /\ active_sessions st'
           = <[uuid := {| topic := strip s; started_at := now; status := lit "running" |}]>
               (active_sessions st)
        /\ threads st' = threads st ++ [(strip s, uuid)]).
Proof.
  destruct (generate_article_cases body uuid now st)
    as [(s & Hs & Hne & ->) | (reply & -> & Hid & Hcode & Hnone)].
  - split; [| split].
    + intros [Hmiss | (s' & Hs' & Hblank)]; [congruence |].
      assert (s' = s) as -> by congruence. by rewrite strip_blank in Hne.
    + intros (items & -> & [Hmiss | (s' & Hs' & Hblank)]); cbn in Hs.
      * by rewrite Hmiss in Hs.
      * rewrite Hs' in Hs. inversion Hs; subst s'. by rewrite strip_blank in Hne.
    + intros s' Hs' _. assert (s' = s) as -> by congruence. by repeat split.
  - split; [| split].
    + intros _. repeat split; [done |]. destruct Hcode as [? | [? _]]; eauto.
    + intros Hcase. by destruct Hcode as [? | [_ ?]].
    + intros s Hs Htext. exfalso.
      apply (strip_has_text s Htext). by apply Hnone.
Qed.

Definition empty_state : State := {| active_sessions := ∅; threads := [] |}.

Lemma submission_rejects_empty_topic_witness :
  let blank_body := inr (JObj [(lit "topic", JStr (lit "   "))]) in
  let good_body := inr (JObj [(lit "topic", JStr (lit " IA "))]) in
  (exists s, submitted_topic blank_body = Some s /\ blank s)
  /\ generate_article blank_body (lit "u1") (lit "t0") empty_state
     = (Refused (lit "El tema no puede estar vacío"), empty_state)
  /\ submitted_topic good_body = Some (lit " IA ")
  /\ has_text (lit " IA ")
  /\ (generate_article good_body (lit "u1") (lit "t0") empty_state).1
     = Started (lit "u1") (lit "IA").
Proof.
  cbn zeta.
  assert (Hb : exists s, submitted_topic (inr (JObj [(lit "topic", JStr (lit "   "))]))
                         = Some s /\ blank s).
  { exists (lit "   "). split; [reflexivity |]. by repeat constructor. }
  assert (Ht : has_text (lit " IA ")) by (right; left; reflexivity).
  pose proof (submission_rejects_empty_topic
                (inr (JObj [(lit "topic", JStr (lit "   "))]))
                (lit "u1") (lit "t0") empty_state) as H1.
  pose proof (submission_rejects_empty_topic
                (inr (JObj [(lit "topic", JStr (lit " IA "))]))
                (lit "u1") (lit "t0") empty_state) as H2.
  destruct (generate_article (inr (JObj [(lit "topic", JStr (lit "   "))])) _ _ _)
    as [r1 st1] eqn:E1.
  destruct (generate_article (inr (JObj [(lit "topic", JStr (lit " IA "))])) _ _ _)
    as [r2 st2] eqn:E2.
  destruct H1 as [H1 _]. destruct (H1 (or_intror Hb)) as (-> & _ & _).
  destruct H2 as (_ & _ & H2). destruct (H2 (lit " IA ") eq_refl Ht) as (-> & _).
  split; [done |]. split; [| by repeat split].
  vm_compute in E1. by inversion E1.
Defined.

End AppFacts.
(* ===================================================================== *)
(** * src/formatting.py: the markdown post-processor                      *)
(* ===================================================================== *)

Module Formatting.

(** ** The fragment of [re] the module uses

    Every pattern of the module is a sequence of character classes, some
    repeated greedily ([+], [{3,}]), cut into adjacent groups ([Split] stands
    between two groups); every replacement is a sequence of literal texts and
    group references. *)
Inductive Atom :=
| One (cls : Py.char -> bool)                 (* one character of the class *)
| Many (cls : Py.char -> bool) (least : nat)  (* [least] or more, greedy *)
| Split.                                      (* [)(] *)

Inductive Piece :=
| Text (t : str)
| Group (n : nat).                            (* [\n], from 1 *)

Definition push (c : Py.char) (m : list str * str) : list str * str :=
  match m with
  | (seg :: segs, rest) => ((c :: seg) :: segs, rest)
  | ([], rest) => ([[c]], rest)
  end.

(** [cls{least,}] followed by the continuation [k]: as many characters as
    possible, giving one back at a time while [k] fails. *)
Fixpoint match_many (cls : Py.char -> bool) (k : str -> option (list str * str))
    (least : nat) (s : str) : option (list str * str) :=
  let stop := match least with O => k s | S _ => None end in
  match s with
  | c :: s' =>
    if cls c then
      match match_many cls k (pred least) s' with
      | Some m => Some (push c m)
      | None => stop
      end
    else stop
  | [] => stop
  end.

(** Match at the start of [s]: the texts of the groups and what follows. *)
Fixpoint match_atoms (atoms : list Atom) : str -> option (list str * str) :=
  match atoms with
  | [] => fun s => Some ([[]], s)
  | One cls :: atoms' => fun s =>
    match s with
    | c :: s' => if cls c then push c <$> match_atoms atoms' s' else None
    | [] => None
    end
  | Many cls least :: atoms' => match_many cls (match_atoms atoms') least
  | Split :: atoms' => fun s =>
    match match_atoms atoms' s with
    | Some (segs, rest) => Some ([] :: segs, rest)
    | None => None
    end
  end.

Definition expand (repl : list Piece) (groups : list str) : str :=
  concat (map (fun p => match p with
                        | Text t => t
                        | Group n => default [] (groups !! pred n)
                        end) repl).

(** The scan of [re.sub]: at each position the pattern is tried; a match is
    replaced and the scan resumes after it, otherwise the character is
    copied.  [fuel] bounds the number of positions visited. *)
Fixpoint sub_from (fuel : nat) (atoms : list Atom) (repl : list Piece) (s : str) : str :=
  match fuel with
  | O => s
  | S fuel' =>
    match match_atoms atoms s with
    | Some (groups, rest) => expand repl groups ++ sub_from fuel' atoms repl rest
    | None =>
      match s with
      | [] => []
      | c :: s' => c :: sub_from fuel' atoms repl s'
      end
    end
  end.

(** [re.sub(pattern, repl, s)] *)
Definition re_sub (atoms : list Atom) (repl : list Piece) (s : str) : str :=
  sub_from (S (length s)) atoms repl s.

(** ** Character classes *)
Definition nl : Py.char := 10%N.
Definition only (c : Py.char) : Py.char -> bool := fun x => (x =? c)%N.
Definition not_nl : Py.char -> bool := fun x => negb (x =? nl)%N.
Definition A_Z : Py.char -> bool := fun x => ((65 <=? x) && (x <=? 90))%N.
(** [[a-záéíóúñ]] *)
Definition lower_es : Py.char -> bool := fun x =>
  ((97 <=? x) && (x <=? 122) || (x =? 225) || (x =? 233) || (x =? 237)
   || (x =? 243) || (x =? 250) || (x =? 241))%N.
(** [[A-ZÁÉÍÓÚÑ]] *)
Definition upper_es : Py.char -> bool := fun x =>
  ((65 <=? x) && (x <=? 90) || (x =? 193) || (x =? 201) || (x =? 205)
   || (x =? 211) || (x =? 218) || (x =? 209))%N.

Definition hash : Py.char := 35%N.
Definition gt : Py.char := 62%N.
Definition dash : Py.char := 45%N.
Definition star : Py.char := 42%N.
Definition space : Py.char := 32%N.

(** [\1\n\n\2] *)
Definition break_between : list Piece := [Group 1; Text [nl; nl]; Group 2].

(** ** [fix_bold_spacing] *)

Definition cons_head (c : Py.char) (parts : list str) : list str :=
  match parts with
  | p :: ps => (c :: p) :: ps
  | [] => [[c]]
  end.

(** [text.split("**")] *)
Fixpoint split_bold (s : str) : list str :=
  match s with
  | [] => [[]]
  | c :: s' =>
    match s' with
    | c' :: s'' =>
      if ((c =? star) && (c' =? star))%N then [] :: split_bold s''
      else cons_head c (split_bold s')
    | [] => cons_head c (split_bold s')
    end
  end.

Section Bold.
(** [str.isalnum] on one character. *)
Variable isalnum : Py.char -> bool.

(** [c.isalnum()] for [c] a character or the empty string. *)
Definition isalnum_opt (c : option Py.char) : bool :=
  match c with Some c => isalnum c | None => false end.

(** The loop over [range(len(parts))], from index [i]. *)
Fixpoint join_bold (i : nat) (parts : list str) : str :=
  match parts with
  | [] => []
  | part :: rest =>
    part ++
    match rest with
    | [] => []
    | next :: _ =>
      let prev_char := last part in
      let next_char := head next in
      let sep :=
        if Nat.even i then
          if isalnum_opt prev_char then [nl; nl; star; star] else [star; star]
        else
          if isalnum_opt next_char then [star; star; nl; nl] else [star; star] in
      sep ++ join_bold (S i) rest
    end
  end.

Definition fix_bold_spacing (text : str) : str :=
  let parts := split_bold text in
  if length parts <? 2 then text else join_bold 0 parts.

(** ** [format_news_article] *)
Definition format_news_article (raw_text : str) : str :=
  match raw_text with
  | [] => []
  | _ =>
    let formatted := re_sub [Many Py.isspace 1] [Text [space]] raw_text in
    let formatted := re_sub [One not_nl; Split; Many (only hash) 1; One (only space)]
                            break_between formatted in
    let formatted := re_sub [One not_nl; Split; One (only gt); One (only space)]
                            break_between formatted in
    let formatted := re_sub [One not_nl; Split; One (only dash); One (only space);
                             One (only star); One (only star)]
                            break_between formatted in
    let formatted := re_sub [One not_nl; Split; One (only dash); One (only space); One A_Z]
                            break_between formatted in
    let formatted := fix_bold_spacing formatted in
    let formatted := re_sub [One not_nl; Split; One (only dash); One (only dash); One (only dash)]
                            break_between formatted in
    let formatted := re_sub [One (only dash); One (only dash); One (only dash); Split; One not_nl]
                            break_between formatted in
    let formatted := re_sub [One lower_es; Split; One upper_es]
                            break_between formatted in
    let formatted := re_sub [Many (only nl) 3] [Text [nl; nl]] formatted in
    formatted
  end.
End Bold.

End Formatting.

(* ===================================================================== *)
(** * Properties of the post-processor                                    *)
(* ===================================================================== *)

Module FormattingFacts.
Import Formatting.

(** ** The scan never runs out of fuel *)

(** Fewest characters a match of the pattern takes. *)
Definition least_length (atoms : list Atom) : nat :=
  foldr (fun a n => match a with One _ => S n | Many _ least => least + n | Split => n end)
        0 atoms.

Lemma push_rest c m : (push c m).2 = m.2.
Proof. by destruct m as [[|seg segs] rest]. Qed.

Lemma match_many_consumes cls k n least s m :
  (forall s m, k s = Some m -> length m.2 + n <= length s) ->
  match_many cls k least s = Some m ->
  length m.2 + (least + n) <= length s.
Proof.
  intros Hk. revert least m.
  induction s as [|c s IH]; intros least m; cbn [match_many].
  - destruct least; [| done]. intros H%Hk. cbn [length] in *. (unfold Py.str, Py.char in *; lia).
  - assert (Hstop : match least with O => k (c :: s) | S _ => None end = Some m ->
                    length m.2 + (least + n) <= length (c :: s)).
    { destruct least; [| done]. intros H%Hk. cbn [length] in *. (unfold Py.str, Py.char in *; lia). }
    destruct (cls c); [| done].
    destruct (match_many cls k (pred least) s) as [m'|] eqn:E; [| done].
    intros [= <-]. rewrite push_rest. apply IH in E. cbn [length]. (unfold Py.str, Py.char in *; lia).
Qed.

Lemma match_atoms_consumes atoms s m :
  match_atoms atoms s = Some m -> length m.2 + least_length atoms <= length s.
Proof.
  revert s m. induction atoms as [|[cls | cls least |] atoms IH]; intros s m; cbn;
    try fold (least_length atoms).
  - intros [= <-]. cbn. (unfold Py.str, Py.char in *; lia).
  - destruct s as [|c s]; [done |]. destruct (cls c); [| done].
    destruct (match_atoms atoms s) as [m'|] eqn:E; [| done].
    intros [= <-]. rewrite push_rest. apply IH in E. cbn [length]. (unfold Py.str, Py.char in *; lia).
  - by apply match_many_consumes.
  - destruct (match_atoms atoms s) as [[segs rest]|] eqn:E; [| done].
    intros [= <-]. by apply IH in E.
Qed.

(** For a pattern that cannot match the empty text, [re_sub] is the scan
    with any larger fuel: the fuel it is given is never used up. *)
Lemma sub_from_enough_fuel atoms repl fuel s :
  1 <= least_length atoms ->
  length s < fuel ->
  sub_from fuel atoms repl s = re_sub atoms repl s.
Proof.
  intros Hpos. unfold re_sub.
  assert (H : forall n f1 f2 t, length t < n -> length t < f1 -> length t < f2 ->
                sub_from f1 atoms repl t = sub_from f2 atoms repl t).
  { induction n as [|n IH]; intros f1 f2 t Hn H1 H2; [unfold Py.str, Py.char in *; lia |].
    destruct f1 as [|f1]; [unfold Py.str, Py.char in *; lia |]. destruct f2 as [|f2]; [unfold Py.str, Py.char in *; lia |].
    cbn [sub_from].
    destruct (match_atoms atoms t) as [[groups rest]|] eqn:E.
    - apply match_atoms_consumes in E. cbn in E.
      f_equal. apply IH; (unfold Py.str, Py.char in *; lia).
    - destruct t as [|c t]; [done |]. cbn in Hn, H1, H2.
      f_equal. apply IH; (unfold Py.str, Py.char in *; lia). }
  intros Hfuel. apply (H (S (length s))); (unfold Py.str, Py.char in *; lia).
Qed.

(** Number of newlines at the start of a text. *)
Fixpoint lead (s : str) : nat :=
  match s with
  | c :: s' => if (c =? nl)%N then S (lead s') else 0
  | [] => 0
  end.

Lemma lead_drop (s : str) : lead (drop (lead s) s) = 0.
Proof.
  induction s as [|c s IH]; [done |].
  cbn [lead]. destruct (c =? nl)%N eqn:E; [done |]. cbn. by rewrite E.
Qed.

Lemma lead_le_length (s : str) : lead s <= length s.
Proof. induction s as [|c s IH]; cbn; [lia |]. destruct (c =? nl)%N; cbn; lia. Qed.

(** [\n{least,}] at the start of [s] takes the whole run of newlines. *)
Lemma match_newlines (s : str) (least : nat) :
  match_many (only nl) (match_atoms []) least s
  = if least <=? lead s then Some ([take (lead s) s], drop (lead s) s) else None.
Proof.
  revert least. induction s as [|c s IH]; intros least.
  - by destruct least.
  - cbn [match_many lead]. unfold only at 1.
    destruct (c =? nl)%N eqn:E.
    + rewrite IH. destruct (pred least <=? lead s) eqn:Hle.
      * apply Nat.leb_le in Hle.
        replace (least <=? S (lead s)) with true by (symmetry; apply Nat.leb_le; lia).
        done.
      * apply Nat.leb_gt in Hle.
        replace (least <=? S (lead s)) with false by (symmetry; apply Nat.leb_gt; lia).
        destruct least; [lia | done].
    + by destruct least.
Qed.

Definition three_newlines : str := [nl; nl; nl].

Lemma startswith_two_newlines (s : str) :
  Py.startswith s [nl; nl] = (2 <=? lead s).
Proof.
  destruct s as [|c [|c' s]]; cbn [Py.startswith lead]; [done | |].
  - rewrite (N.eqb_sym nl c). by destruct (c =? nl)%N.
  - rewrite (N.eqb_sym nl c), (N.eqb_sym nl c').
    destruct (c =? nl)%N; [| done]. by destruct (c' =? nl)%N, s.
Qed.

Lemma contains_three_cons (c : Py.char) (s : str) :
  Py.contains three_newlines (c :: s)
  = (c =? nl)%N && (2 <=? lead s) || Py.contains three_newlines s.
Proof.
  unfold three_newlines.
  change (Py.contains [nl; nl; nl] (c :: s))
    with ((nl =? c)%N && Py.startswith s [nl; nl] || Py.contains [nl; nl; nl] s).
  by rewrite startswith_two_newlines, (N.eqb_sym nl c).
Qed.

(** Step 7 leaves runs of at most two newlines. *)
Lemma collapse_newlines_spec (fuel : nat) (s : str) :
  length s < fuel ->
  let out := sub_from fuel [Many (only nl) 3] [Text [nl; nl]] s in
  Py.contains three_newlines out = false /\ lead out = Nat.min (lead s) 2.
Proof.
  revert s. induction fuel as [|fuel IH]; intros s Hfuel; [lia |].
  cbn zeta. cbn [sub_from match_atoms]. rewrite match_newlines.
  destruct (3 <=? lead s) eqn:Hrun.
  - apply Nat.leb_le in Hrun.
    pose proof (lead_le_length s) as Hlen.
    destruct (IH (drop (lead s) s)) as [Hc Hl].
    { rewrite length_drop. lia. }
    rewrite lead_drop in Hl. cbn [Nat.min] in Hl.
    change (expand [Text [nl; nl]] [take (lead s) s]) with [nl; nl].
    cbn [app]. rewrite !contains_three_cons, Hc. cbn [lead]. rewrite N.eqb_refl, Hl.
    split; [done |]. lia.
  - apply Nat.leb_gt in Hrun.
    destruct s as [|c s']; [done |].
    destruct (IH s') as [Hc Hl]; [cbn in Hfuel; lia |].
    rewrite contains_three_cons, Hc. cbn [lead] in *.
    destruct (c =? nl)%N; [| done].
    rewrite Hl. split; [| lia].
    replace (2 <=? Nat.min (lead s') 2) with false by (symmetry; apply Nat.leb_gt; lia).
    done.
Qed.

(** C10.  [format_news_article] is a total function; its output never holds
    three newlines in a row, and the empty text is mapped to the empty
    text. *)
Theorem format_never_three_newlines (isalnum : Py.char -> bool) (raw_text : str) :
  Py.contains three_newlines (format_news_article isalnum raw_text) = false
  /\ format_news_article isalnum [] = [].
Proof.
  split; [| done].
  destruct raw_text as [|c s]; [done |].
  unfold format_news_article, re_sub.
  apply collapse_newlines_spec. lia.
Qed.

End FormattingFacts.

(* ===================================================================== *)
(** * More on the resilient client                                        *)
(* ===================================================================== *)

Module ProxyRetry.
Import Proxy ProxyFacts.

Section Call.
Variable cfg : Config.
Variable post : nat -> PostOutcome.
Variable random : nat -> Q.

(** An error the client returns comes alone, has a text, and never carries
    a status of the success range. *)
Lemma returned_error (response : option Response) (e : ErrorDict) :
  fst (call_ralf_with_retry cfg post random) = Returned (response, Some e) ->
  response = None /\ error e <> [] /\ ~ (200 <= error_status_code e < 300)%Z.
Proof.
  unfold call_ralf_with_retry.
  destruct (Z.to_nat (MAX_RETRIES cfg)) as [|n] eqn:Hmax; [done |].
  pose proof (retry_loop_result cfg post random (seq 0 (S n)) None
                {| posts := 0; sleeps := [] |} ltac:(by left)) as Hr.
  destruct (retry_loop cfg post random _ None _) as [[[[rsp|] [e'|]]|] log];
    cbn in Hr |- *; try done.
  intros [= <- <-]. by destruct Hr.
Qed.
End Call.







(** X4.  An error returned by the client comes without a response, has a
    text, and never carries a status code of the success range 200..299. *)
Theorem error_status_outside_success_range (cfg : Config)
    (post : nat -> PostOutcome) (random : nat -> Q)
    (response : option Response) (e : ErrorDict) :
  fst (call_ralf_with_retry cfg post random) = Returned (response, Some e) ->
  response = None /\ error e <> [] /\ ~ (200 <= error_status_code e < 300)%Z.
Proof. apply returned_error. Qed.

Lemma error_status_outside_success_range_witness :
  let e := {| error := lit "Excepción conexión RALF: timeout"; error_status_code := 503 |} in
  fst (call_ralf_with_retry default_config
         (fun _ => RequestException (lit "timeout")) (fun _ => 0%Q))
  = Returned (None, Some e)
  /\ ~ (200 <= error_status_code e < 300)%Z.
Proof.
  cbn zeta.
  assert (H : fst (call_ralf_with_retry default_config
                     (fun _ => RequestException (lit "timeout")) (fun _ => 0%Q))
              = Returned (None, Some {| error := lit "Excepción conexión RALF: timeout";
                                        error_status_code := 503 |}))
    by (vm_compute; reflexivity).
  split; [exact H |].
  exact (proj2 (proj2 (error_status_outside_success_range default_config
                         (fun _ => RequestException (lit "timeout")) (fun _ => 0%Q)
                         None _ H))).
Defined.

End ProxyRetry.

(* ===================================================================== *)
(** * ralf_proxy.py: the chat-completions endpoint                        *)
(* ===================================================================== *)

Module ProxyEndpoint.
Import Proxy App.

(** Exceptions met inside the endpoint; all are caught by its
    [except Exception] and answered with status 500. *)
Inductive EndpointExn :=
| GetJsonFailed           (* [request.get_json()] raises *)
| NoGetMethod             (* [openai_data.get] on a value that is not a dict *)
| UnicodeDecodeError      (* [line.decode("utf-8")] *)
| OverflowError.          (* raised by [call_ralf_with_retry] *)

(** One item of the event stream sent back in streaming mode. *)
Inductive StreamItem :=
| Delta (content : str)   (* [data: {"choices": [{"delta": {"content": ...}}]}] *)
| Done.                   (* [data: [DONE]] *)

(** What the endpoint answers. *)
Inductive Answer :=
| ErrorAnswer (message : str) (status : Z)     (* [{"error": message}, status] *)
| InternalError (e : EndpointExn)              (* "Error interno del proxy: ...", 500 *)
| Completion (content : str)                   (* the chat.completion object, 200 *)
| Streaming (items : list StreamItem) (completed : bool).
    (* the event stream, 200; [completed] is false when the generator
       raised before its end *)

Definition answer_status (a : Answer) : Z :=
  match a with
  | ErrorAnswer _ status => status
  | InternalError _ => 500
  | Completion _ | Streaming _ _ => 200
  end.

(** [data.get(key, default)] *)
Definition dict_get (key : str) (default : Json) (data : Json) : EndpointExn + Json :=
  match data with
  | JObj items =>
    match lookup_key key items with
    | Some v => inr v
    | None => inr default
    end
  | _ => inl NoGetMethod
  end.

(** A line of [response.iter_lines()]: its text when the bytes decode as
    UTF-8 ([Some []] is the empty line), [None] when they do not. *)
Definition Line : Type := option str.

(** The non-streaming loop: [full_response += line.decode("utf-8")] for the
    lines that are not empty. *)
Fixpoint join_lines (lines : list Line) (full_response : str) : EndpointExn + str :=
  match lines with
  | [] => inr full_response
  | Some [] :: rest => join_lines rest full_response
  | Some text :: rest => join_lines rest (full_response ++ text)
  | None :: rest => inl UnicodeDecodeError
  end.

(** The generator of the streaming mode. *)
Fixpoint generate (lines : list Line) : list StreamItem * bool :=
  match lines with
  | [] => ([Done], true)
  | Some [] :: rest => generate rest
  | Some text :: rest => let '(items, ok) := generate rest in (Delta text :: items, ok)
  | None :: rest => ([], false)
  end.

Definition suggestion : str :=
  lit " | Sugerencia: La API_RALF está sobrecargada. "
  ++ lit "Espera unos minutos antes de reintentar.".

Section Endpoint.
(** [str.lower] *)
Variable lower : str -> str.
Variable cfg : Config.
Variable post : nat -> PostOutcome.
Variable random : nat -> Q.
(** [response.iter_lines()] *)
Variable iter_lines : Response -> list Line.

(** [chat_completions()]; [body] is what [request.get_json()] does.  The log
    of the upstream call is returned beside the answer. *)
Definition chat_completions (body : option Json) : Answer * Log :=
  let idle := {| posts := 0; sleeps := [] |} in
  match body with
  | None => (InternalError GetJsonFailed, idle)
  | Some openai_data =>
    if negb (truthy openai_data) then
      (ErrorAnswer (lit "No JSON data provided") 400, idle)
    else
      match dict_get (lit "messages") (JArr []) openai_data with
      | inl e => (InternalError e, idle)
      | inr messages =>
        if negb (truthy messages) then
          (ErrorAnswer (lit "No messages provided") 400, idle)
        else
          match dict_get (lit "stream") (JBool false) openai_data with
          | inl e => (InternalError e, idle)
          | inr is_streaming =>
            match call_ralf_with_retry cfg post random with
            | (Raises_OverflowError, log) => (InternalError OverflowError, log)
            | (Returned (response, error), log) =>
              match error with
              | Some error =>
                let status_code := error_status_code error in
                let error_message := Proxy.error error in
                let error_message :=
                  if (status_code =? 429)%Z
                     || Py.contains (lit "rate limit") (lower error_message)
                  then error_message ++ suggestion
                  else error_message in
                (ErrorAnswer error_message status_code, log)
              | None =>
                match response with
                | None =>
                  (ErrorAnswer (lit "No response received from RALF service") 500, log)
                | Some response =>
                  if truthy is_streaming then
                    let '(items, ok) := generate (iter_lines response) in
                    (Streaming items ok, log)
                  else
                    match join_lines (iter_lines response) [] with
                    | inl e => (InternalError e, log)
                    | inr full_response => (Completion full_response, log)
                    end
                end
              end
            end
          end
      end
  end.
End Endpoint.

End ProxyEndpoint.

Module ProxyEndpointFacts.
Import Proxy App ProxyEndpoint.

(** The messages of a request the endpoint accepts: a JSON object whose
    ["messages"] entry is truthy. *)
Definition request_messages (body : option Json) : option Json :=
  match body with
  | Some (JObj items) =>
    match lookup_key (lit "messages") items with
    | Some messages => if truthy messages then Some messages else None
    | None => None
    end
  | _ => None
  end.

(** The [stream] flag of a request. *)
Definition request_stream (body : option Json) : bool :=
  match body with
  | Some (JObj items) =>
    match lookup_key (lit "stream") items with
    | Some flag => truthy flag
    | None => false
    end
  | _ => false
  end.

(** The decoded texts of the non-empty lines. *)
Definition texts (lines : list Line) : list str :=
  omap (fun l => match l with
                 | Some (c :: t) => Some (c :: t)
                 | Some [] | None => None
                 end) lines.

Definition decodable (lines : list Line) : Prop := Forall (fun l => l <> None) lines.

Lemma join_lines_decodable lines acc :
  decodable lines -> join_lines lines acc = inr (acc ++ concat (texts lines)).
Proof.
  intros H. revert acc. induction H as [|[[|c t]|] lines Hl _ IH]; intros acc; cbn.
  - by rewrite app_nil_r.
  - apply IH.
  - rewrite IH. by rewrite <- app_assoc.
  - done.
Qed.

Lemma generate_decodable lines :
  decodable lines -> generate lines = ((Delta <$> texts lines) ++ [Done], true).
Proof.
  induction 1 as [|[[|c t]|] lines Hl _ IH]; cbn; try done.
  by rewrite IH.
Qed.


Section Endpoint.
Variable lower : str -> str.
Variable cfg : Config.
Variable post : nat -> PostOutcome.
Variable random : nat -> Q.
Variable iter_lines : Response -> list Line.

Local Abbreviation chat := (chat_completions lower cfg post random iter_lines).

Lemma lookup_key_truthy key items v :
  lookup_key key items = Some v -> truthy (JObj items) = true.
Proof. by destruct items. Qed.

(** An accepted request goes to the upstream service. *)
Lemma chat_accepted (body : option Json) (messages : Json) :
  request_messages body = Some messages ->
  chat body =
  match call_ralf_with_retry cfg post random with
  | (Raises_OverflowError, log) => (InternalError OverflowError, log)
  | (Returned (response, error), log) =>
    match error with
    | Some error =>
      (ErrorAnswer
         (if (error_status_code error =? 429)%Z
             || Py.contains (lit "rate limit") (lower (Proxy.error error))
          then Proxy.error error ++ suggestion else Proxy.error error)
         (error_status_code error), log)
    | None =>
      match response with
      | None => (ErrorAnswer (lit "No response received from RALF service") 500, log)
      | Some response =>
        if request_stream body then
          let '(items, ok) := generate (iter_lines response) in (Streaming items ok, log)
        else
          match join_lines (iter_lines response) [] with
          | inl e => (InternalError e, log)
          | inr full_response => (Completion full_response, log)
          end
      end
    end
  end.
Proof.
  destruct body as [[| | | | |items]|]; try done. cbn [request_messages request_stream].
  destruct (lookup_key (lit "messages") items) as [m|] eqn:Hm; [| done].
  destruct (truthy m) eqn:Ht; [| done]. intros _.
  unfold chat_completions. rewrite (lookup_key_truthy _ _ _ Hm). cbn [negb dict_get].
  rewrite Hm, Ht. cbn [negb].
  destruct (lookup_key (lit "stream") items); reflexivity.
Qed.

(** X5.  A request that is not a JSON object with a non-empty ["messages"]
    entry is answered 400 or 500 without any call to the upstream service;
    when the body is a JSON object the answer is 400. *)
Theorem invalid_request_never_forwarded (body : option Json) :
  request_messages body = None ->
  let '(answer, log) := chat body in
  posts log = 0
  /\ sleeps log = []
  /\ (answer_status answer = 400%Z \/ answer_status answer = 500%Z)
  /\ (forall items, body = Some (JObj items) -> answer_status answer = 400%Z).
Proof.
  unfold chat_completions.
  destruct body as [data|]; [| intros _; repeat split; try (by right); done].
  destruct (truthy data) eqn:Ht; cbn [negb].
  2:{ intros _. repeat split; try (by left); done. }
  destruct data as [| | | | |items]; try (intros _; repeat split; try (by right); done).
  cbn [request_messages dict_get].
  destruct (lookup_key (lit "messages") items) as [m|]; cbn.
  - destruct (truthy m); [done |]. cbn. intros _. repeat split; try (by left); done.
  - intros _. repeat split; try (by left); done.
Qed.


(** X7.  When the upstream call succeeds and its body decodes, the buffered
    mode returns the concatenation of the non-empty lines and the streaming
    mode sends one item per non-empty line, in order, followed by the [DONE]
    sentinel: both modes deliver the same text. *)
Theorem success_delivers_lines (body : option Json) (messages : Json)
    (response : Response) :
  request_messages body = Some messages ->
  (call_ralf_with_retry cfg post random).1 = Returned (Some response, None) ->
  decodable (iter_lines response) ->
  (chat body).1 =
    if request_stream body
    then Streaming ((Delta <$> texts (iter_lines response)) ++ [Done]) true
    else Completion (concat (texts (iter_lines response))).
Proof.
  intros Hreq Hcall Hdec. rewrite (chat_accepted body messages Hreq).
  destruct (call_ralf_with_retry cfg post random) as [outcome log].
  cbn in Hcall. subst outcome.
  destruct (request_stream body).
  - by rewrite (generate_decodable _ Hdec).
  - by rewrite (join_lines_decodable _ _ Hdec).
Qed.


(** X9.  With MAX_RETRIES <= 0 an accepted request is answered 500 "No
    response received from RALF service" without any call to the service. *)
Theorem no_retry_budget_no_response (body : option Json) (messages : Json) :
  request_messages body = Some messages ->
  (MAX_RETRIES cfg <= 0)%Z ->
  chat body = (ErrorAnswer (lit "No response received from RALF service") 500,
               {| posts := 0; sleeps := [] |}).
Proof.
  intros Hreq Hmax. rewrite (chat_accepted body messages Hreq).
  unfold call_ralf_with_retry.
  replace (Z.to_nat (MAX_RETRIES cfg)) with 0%nat by lia. reflexivity.
Qed.
End Endpoint.

(** ** Concrete requests *)

Definition hello_request (stream : bool) : option Json :=
  Some (JObj [(lit "messages", JArr [JObj [(lit "role", JStr (lit "user"));
                                           (lit "content", JStr (lit "hola"))]]);
              (lit "stream", JBool stream)]).

Definition two_lines (_ : Response) : list Line := [Some (lit "Bue"); Some []; Some (lit "nas")].
Definition always_ok (_ : nat) : PostOutcome := Responded {| status_code := 200; text := [] |}.


Lemma invalid_request_never_forwarded_witness :
  let body := Some (JObj [(lit "messages", JArr [])]) in
  request_messages body = None
  /\ chat_completions Py.ascii_upper default_config always_ok (fun _ => 1 # 2) two_lines body
     = (ErrorAnswer (lit "No messages provided") 400, {| posts := 0; sleeps := [] |}).
Proof.
  cbn zeta. split; [reflexivity |].
  pose proof (invalid_request_never_forwarded Py.ascii_upper default_config always_ok
                (fun _ => 1 # 2) two_lines
                (Some (JObj [(lit "messages", JArr [])])) eq_refl) as H.
  destruct (chat_completions _ _ _ _ _ _) as [answer [p q]] eqn:E.
  cbn in H. destruct H as (-> & -> & _). unfold chat_completions in E.
  cbn in E. by inversion E.
Defined.


Lemma success_delivers_lines_witness :
  (chat_completions Py.ascii_upper default_config always_ok (fun _ => 1 # 2) two_lines
     (hello_request false)).1 = Completion (lit "Buenas")
  /\ (chat_completions Py.ascii_upper default_config always_ok (fun _ => 1 # 2) two_lines
        (hello_request true)).1
     = Streaming [Delta (lit "Bue"); Delta (lit "nas"); Done] true.
Proof.
  split.
  - exact (success_delivers_lines Py.ascii_upper default_config always_ok (fun _ => 1 # 2)
             two_lines (hello_request false) _ {| status_code := 200; text := [] |}
             eq_refl eq_refl ltac:(by repeat constructor)).
  - exact (success_delivers_lines Py.ascii_upper default_config always_ok (fun _ => 1 # 2)
             two_lines (hello_request true) _ {| status_code := 200; text := [] |}
             eq_refl eq_refl ltac:(by repeat constructor)).
Defined.


Lemma no_retry_budget_no_response_witness :
  let cfg := {| MAX_RETRIES := 0; BASE_DELAY := 2; MAX_DELAY := 60;
                JITTER_RANGE := 1 # 2 |} in
  chat_completions Py.ascii_upper cfg always_ok (fun _ => 1 # 2) two_lines
    (hello_request false)
  = (ErrorAnswer (lit "No response received from RALF service") 500,
     {| posts := 0; sleeps := [] |}).
Proof.
  apply (no_retry_budget_no_response Py.ascii_upper
           {| MAX_RETRIES := 0; BASE_DELAY := 2; MAX_DELAY := 60; JITTER_RANGE := 1 # 2 |}
           always_ok (fun _ => 1 # 2) two_lines (hello_request false) _ eq_refl).
  cbn; lia.
Defined.

End ProxyEndpointFacts.

(* ===================================================================== *)
(** * More on the orchestrator                                            *)
(* ===================================================================== *)

Module CrewRun.
Import Crew CrewFacts.

(** The size limits of the payloads, as the callbacks cut them. *)
Definition payload_bounded (a : Action) : Prop :=
  match a with
  | Emit (agent_start _ task _) => length task <= 200
  | Emit (agent_finish _ output) => length output <= 400
  | Emit (backtracking _ _ feedback) => length feedback <= 300
  | Emit (crew_finish result) => length result <= 500
  | Emit (error_event _ _) | Call _ _ => True
  end.

(** Outcomes of the calls to the workers, whatever the worker, in order. *)
Definition outcomes (acts : list Action) : list Kickoff :=
  omap (fun a => match a with Call _ k => Some k | Emit _ => None end) acts.

Definition is_ok (k : Kickoff) : Prop :=
  match k with Ok _ => True | Raises _ => False end.

Lemma slice_to_length n (s : str) : length (Py.slice_to n s) <= n.
Proof. unfold Py.slice_to. rewrite length_take. lia. Qed.

Section Run.
Variable upper : str -> str.
Variable sid : str.
Variable w : Workers.

Local Abbreviation verdict := (spec_verdict upper (lit "APROBADO") (lit "RECHAZADO")).

Ltac run_cycle :=
  unfold cycle, on_agent_start, on_agent_finish, on_backtracking, on_crew_finish,
    kickoff, _emit, get_handler, set_handler, mbind, M_bind, mret, M_ret.

(** The whole of what one pass does, beyond [cycle_spec]: payload sizes, the
    last action and the topic handed on. *)
Ltac bounded :=
  repeat (apply List.Forall_cons; [first [exact I | apply slice_to_length] |]);
  apply List.Forall_nil.

Lemma cycle_trace (iteration : nat) (topic : str) (h : Handler) :
  let '(res, _, acts) := cycle upper sid w iteration topic h in
  Forall payload_bounded acts
  /\ match res with
     | inl _ => True
     | inr (Return r) =>
       Crew.topic r = topic /\ session_id r = sid
       /\ (forall a, article r = Some a ->
             last acts = Some (Emit (crew_finish (Py.slice_to 500 a))))
     | inr (Continue topic') =>
       exists suffix, topic' = topic ++ suffix
         /\ length suffix <= 217 * length (backtrackings acts)
     end.
Proof.
  assert (H200 := slice_to_length 200).
  assert (Hopen : length (lit " (REFINAMIENTO: ") = 16) by (vm_compute; reflexivity).
  assert (Hclose : length (lit ")") = 1) by (vm_compute; reflexivity).
  run_cycle.
  destruct (iteration <? MAX_ITERATIONS);
    (destruct (investigation w iteration topic) as [ir | e]; cbn;
      [| split; [bounded | done]]);
    (destruct (analysis w iteration ir) as [ar | e]; cbn;
      [| split; [bounded | done]]);
    destruct (Py.contains (lit "APROBADO") (upper ar));
    destruct (Py.contains (lit "RECHAZADO") (upper ar)); cbn;
    try (destruct (writing w iteration ir ar); cbn);
    (split; [bounded |]);
    try done;
    try (by repeat split; intros a [= <-]);
    try (exists []; by rewrite app_nil_r);
    try (repeat split; done).
  all: eexists; split; [reflexivity |]; rewrite !length_app, Hopen, Hclose;
    specialize (H200 ar); cbn; lia.
Qed.

(** The calls of one pass: all return but, when the pass raises, the last. *)
Lemma cycle_outcomes (iteration : nat) (topic : str) (h : Handler) :
  let '(res, _, acts) := cycle upper sid w iteration topic h in
  match res with
  | inl e => exists rest, reverse (outcomes acts) = Raises e :: rest /\ Forall is_ok rest
  | inr _ => Forall is_ok (outcomes acts)
  end.
Proof.
  run_cycle.
  destruct (iteration <? MAX_ITERATIONS);
    (destruct (investigation w iteration topic) as [ir | e]; cbn;
      [| eexists; split; [reflexivity | bounded]]);
    (destruct (analysis w iteration ir) as [ar | e]; cbn;
      [| eexists; split; [reflexivity | bounded]]);
    destruct (Py.contains (lit "APROBADO") (upper ar));
    destruct (Py.contains (lit "RECHAZADO") (upper ar)); cbn;
    try (destruct (writing w iteration ir ar); cbn);
    try bounded.
  all: (eexists; split; [reflexivity | bounded]).
Qed.

Lemma last_app_nonempty {A} (l1 l2 : list A) : l2 <> [] -> last (l1 ++ l2) = last l2.
Proof. intros H. rewrite last_app. destruct (last l2) eqn:E; [done |]. by apply last_None in E. Qed.

(** A worker that raises ends the run. *)
Lemma while_loop_raise (fuel iteration : nat) (topic : str) (h : Handler) (e : str) :
  let '(r, _, acts) := while_loop upper sid w fuel iteration topic h in
  Raises e ∈ outcomes acts ->
  exists res agent,
    r = Some res
    /\ status res = lit "error"
    /\ error res = Some (lit "Error durante ejecución de crew: " ++ e)
    /\ article res = None
    /\ last acts
       = Some (Emit (error_event agent (lit "Error durante ejecución de crew: " ++ e)))
    /\ last (outcomes acts) = Some (Raises e).
Proof.
  revert iteration topic h.
  induction fuel as [|fuel IH]; intros iteration topic h; [by intros ?%elem_of_nil |].
  rewrite while_loop_S.
  destruct (iteration <? MAX_ITERATIONS); [| by intros ?%elem_of_nil].
  pose proof (cycle_outcomes (S iteration) topic h) as Hc.
  destruct (cycle upper sid w (S iteration) topic h) as [[[e0 | [r | topic']] h1] acts].
  - destruct (except_handler_spec sid e0 topic h1) as [agent ->].
    destruct Hc as (rest & Hrev & Hok).
    unfold outcomes. rewrite omap_app. cbn [omap]. rewrite app_nil_r. fold (outcomes acts).
    intros Hin. apply elem_of_reverse in Hin. rewrite Hrev in Hin.
    apply elem_of_cons in Hin as [[= ->] | Hin].
    2:{ rewrite Forall_forall in Hok. by destruct (Hok _ Hin). }
    eexists _, agent. repeat split; [by rewrite last_snoc |].
    by rewrite <- head_reverse, Hrev.
  - intros Hin. rewrite Forall_forall in Hc. by destruct (Hc _ Hin).
  - specialize (IH (S iteration) topic' h1).
    destruct (while_loop upper sid w fuel (S iteration) topic' h1) as [[r h2] acts'].
    unfold outcomes. rewrite omap_app. fold (outcomes acts) (outcomes acts').
    intros [Hin | Hin]%elem_of_app.
    { rewrite Forall_forall in Hc. by destruct (Hc _ Hin). }
    destruct (IH Hin) as (res & agent & -> & ? & ? & ? & Hlast & Hlast').
    exists res, agent. repeat split; try done.
    + rewrite last_app_nonempty; [done |]. intros ->. done.
    + rewrite last_app_nonempty; [done |]. intros Hnil. rewrite Hnil in Hlast'. done.
Qed.

(** The writer is called at most once, and only in a pass whose analysis was
    approved; that pass is the last. *)
Lemma while_loop_writer (fuel iteration : nat) (topic : str) (h : Handler) (k : Kickoff) :
  let '(_, _, acts) := while_loop upper sid w fuel iteration topic h in
  k ∈ calls Writer acts ->
  calls Writer acts = [k]
  /\ exists ar, last (calls Analyst acts) = Some (Ok ar) /\ verdict ar = Approved.
Proof.
  revert iteration topic h.
  induction fuel as [|fuel IH]; intros iteration topic h; [by intros ?%elem_of_nil |].
  rewrite while_loop_S.
  destruct (iteration <? MAX_ITERATIONS); [| by intros ?%elem_of_nil].
  pose proof (cycle_spec upper sid w (S iteration) topic h) as Hc.
  destruct (cycle upper sid w (S iteration) topic h) as [[res h1] acts].
  assert (Hcyc : match res with
                 | inr (Continue _) => calls Writer acts = []
                 | _ => k ∈ calls Writer acts ->
                        calls Writer acts = [k]
                        /\ exists ar, calls Analyst acts = [Ok ar] /\ verdict ar = Approved
                 end).
  { destruct Hc as [_ Hc].
    destruct (investigation w (S iteration) topic) as [ir | e].
    2:{ destruct Hc as (-> & _ & -> & _). by intros ?%elem_of_nil. }
    destruct Hc as [Ha Hc].
    destruct (analysis w (S iteration) ir) as [ar | e].
    2:{ destruct Hc as (-> & -> & _). by intros ?%elem_of_nil. }
    destruct (verdict ar) eqn:Hv.
    - destruct Hc as (Hw & _ & Hc). rewrite Hw, Ha.
      assert (k ∈ [writing w (S iteration) ir ar] ->
              [writing w (S iteration) ir ar] = [k]
              /\ exists ar0, [Ok ar] = [Ok ar0] /\ verdict ar0 = Approved).
      { intros ->%list_elem_of_singleton. split; [done |]. by exists ar. }
      destruct (writing w (S iteration) ir ar); by subst res.
    - destruct Hc as [Hw Hc]. rewrite Hw.
      destruct (S iteration <? MAX_ITERATIONS); destruct Hc as [-> _];
        [done | by intros ?%elem_of_nil].
    - by destruct Hc as (Hw & _ & ->). }
  destruct res as [e | [r | topic']].
  - destruct (except_handler_spec sid e topic h1) as [agent ->].
    rewrite !calls_app. cbn. rewrite !app_nil_r.
    intros Hin. destruct (Hcyc Hin) as (-> & ar & -> & ?). split; [done |]. by exists ar.
  - intros Hin. destruct (Hcyc Hin) as (-> & ar & -> & ?). split; [done |]. by exists ar.
  - specialize (IH (S iteration) topic' h1).
    destruct (while_loop upper sid w fuel (S iteration) topic' h1) as [[r h2] acts'].
    rewrite !calls_app, Hcyc. cbn [app]. intros Hin.
    destruct (IH Hin) as (-> & ar & Hlast & ?). split; [done |]. exists ar.
    split; [| done]. rewrite last_app_nonempty; [done |]. intros Hnil.
    by rewrite Hnil in Hlast.
Qed.

(** The topic only grows, by at most 217 characters per backtrack event, and
    there is at most one backtrack event per pass but the last. *)
Lemma while_loop_topic (fuel iteration : nat) (topic : str) (h : Handler) :
  MAX_ITERATIONS - iteration < fuel ->
  let '(r, _, acts) := while_loop upper sid w fuel iteration topic h in
  exists res suffix,
    r = Some res
    /\ Crew.topic res = topic ++ suffix
    /\ session_id res = sid
    /\ length suffix <= 217 * length (backtrackings acts)
    /\ length (backtrackings acts) <= pred (MAX_ITERATIONS - iteration).
Proof.
  revert iteration topic h.
  induction fuel as [|fuel IH]; intros iteration topic h Hfuel; [lia |].
  rewrite while_loop_S.
  destruct (iteration <? MAX_ITERATIONS) eqn:Hlt.
  2:{ exists (exhausted sid topic), []. cbn. rewrite app_nil_r. repeat split; lia. }
  apply Nat.ltb_lt in Hlt.
  pose proof (cycle_trace (S iteration) topic h) as Ht.
  pose proof (cycle_spec upper sid w (S iteration) topic h) as Hc.
  destruct (cycle upper sid w (S iteration) topic h) as [[res h1] acts].
  assert (Hb : length (backtrackings acts) <= 1
               /\ (backtrackings acts <> [] ->
                   S iteration < MAX_ITERATIONS /\ exists t, res = inr (Continue t))).
  { destruct Hc as [_ Hc].
    destruct (investigation w (S iteration) topic) as [ir | e];
      [| destruct Hc as (_ & _ & _ & ->); by split; [cbn; lia |]].
    destruct Hc as [_ Hc].
    destruct (analysis w (S iteration) ir) as [ar | e];
      [| destruct Hc as (_ & _ & ->); by split; [cbn; lia |]].
    destruct (verdict ar).
    - destruct Hc as (_ & -> & _). by split; [cbn; lia |].
    - destruct Hc as [_ Hc]. destruct (S iteration <? MAX_ITERATIONS) eqn:Hn.
      + destruct Hc as [-> ->]. split; [cbn; lia |]. intros _.
        apply Nat.ltb_lt in Hn. split; [done |]. by eexists.
      + destruct Hc as [_ ->]. by split; [cbn; lia |].
    - destruct Hc as (_ & -> & _). by split; [cbn; lia |]. }
  destruct Hb as [Hb1 Hb2]. destruct Ht as [_ Ht].
  destruct res as [e | [r | topic']].
  - destruct (except_handler_spec sid e topic h1) as [agent ->].
    eexists _, []. cbn [Crew.topic session_id]. rewrite app_nil_r, backtrackings_app.
    cbn. rewrite app_nil_r. repeat split; [lia |].
    destruct (backtrackings acts) as [|b bs] eqn:E; [cbn; lia |].
    by destruct (Hb2 ltac:(done)) as (_ & t & ?).
  - destruct Ht as (Htopic & Hsid & _). exists r, []. rewrite app_nil_r.
    repeat split; try done; [cbn; lia |].
    destruct (backtrackings acts) as [|b bs] eqn:E; [cbn; lia |].
    by destruct (Hb2 ltac:(done)) as (_ & t & ?).
  - destruct Ht as (suffix & -> & Hlen).
    specialize (IH (S iteration) (topic ++ suffix) h1 ltac:(lia)).
    destruct (while_loop upper sid w fuel (S iteration) (topic ++ suffix) h1)
      as [[r h2] acts'].
    destruct IH as (res & suffix' & -> & Htopic & Hsid & Hlen' & Hcount).
    exists res, (suffix ++ suffix'). rewrite app_assoc, backtrackings_app, !length_app.
    repeat split; try done; [lia |].
    destruct (backtrackings acts) as [|b bs] eqn:E; [cbn in *; lia |].
    destruct (Hb2 ltac:(done)) as (Hn & _). cbn [length] in *. lia.
Qed.

(** Every payload published is within its size limit. *)
Lemma while_loop_payloads (fuel iteration : nat) (topic : str) (h : Handler) :
  let '(_, _, acts) := while_loop upper sid w fuel iteration topic h in
  Forall payload_bounded acts.
Proof.
  revert iteration topic h.
  induction fuel as [|fuel IH]; intros iteration topic h; [constructor |].
  rewrite while_loop_S.
  destruct (iteration <? MAX_ITERATIONS); [| constructor].
  pose proof (cycle_trace (S iteration) topic h) as Ht.
  destruct (cycle upper sid w (S iteration) topic h) as [[[e | [r | topic']] h1] acts].
  - destruct (except_handler_spec sid e topic h1) as [agent ->].
    apply Forall_app. split; [by destruct Ht |]. by repeat constructor.
  - by destruct Ht.
  - specialize (IH (S iteration) topic' h1).
    destruct (while_loop upper sid w fuel (S iteration) topic' h1) as [[r h2] acts'].
    apply Forall_app. split; [by destruct Ht | done].
Qed.

(** A run that returns an article ends by publishing it. *)
Lemma while_loop_finish (fuel iteration : nat) (topic : str) (h : Handler) :
  let '(r, _, acts) := while_loop upper sid w fuel iteration topic h in
  forall res a, r = Some res -> article res = Some a ->
    last acts = Some (Emit (crew_finish (Py.slice_to 500 a))).
Proof.
  revert iteration topic h.
  induction fuel as [|fuel IH]; intros iteration topic h; [done |].
  rewrite while_loop_S.
  destruct (iteration <? MAX_ITERATIONS); [| by intros res a [= <-]].
  pose proof (cycle_trace (S iteration) topic h) as Ht.
  destruct (cycle upper sid w (S iteration) topic h) as [[[e | [r | topic']] h1] acts].
  - destruct (except_handler_spec sid e topic h1) as [agent ->].
    by intros res a [= <-].
  - intros res a [= <-] Ha. destruct Ht as (_ & _ & _ & Ht). by apply Ht.
  - specialize (IH (S iteration) topic' h1).
    destruct (while_loop upper sid w fuel (S iteration) topic' h1) as [[r h2] acts'].
    intros res a Hr Ha. specialize (IH res a Hr Ha).
    rewrite last_app_nonempty; [done |]. intros ->. done.
Qed.

(** If every remaining iteration gets an Ambiguous verdict, the loop runs
    out: the topic is still the one it started with and nothing was
    published about backtracking. *)
Lemma while_loop_all_ambiguous (fuel iteration : nat) (topic : str) (h : Handler)
    (ars : list str) :
  MAX_ITERATIONS - iteration < fuel ->
  iteration + length ars = MAX_ITERATIONS ->
  Forall (fun a => verdict a = Ambiguous) ars ->
  let '(r, _, acts) := while_loop upper sid w fuel iteration topic h in
  calls Analyst acts = Ok <$> ars ->
  r = Some (exhausted sid topic) /\ backtrackings acts = [] /\ calls Writer acts = [].
Proof.
  revert iteration topic h ars.
  induction fuel as [|fuel IH]; intros iteration topic h ars Hfuel Hlen Hamb; [lia |].
  rewrite while_loop_S.
  destruct (iteration <? MAX_ITERATIONS) eqn:Hlt; [| done].
  apply Nat.ltb_lt in Hlt.
  destruct ars as [|a ars]; [cbn in Hlen; lia |].
  inversion Hamb as [|? ? Ha Hamb']; subst.
  pose proof (cycle_spec upper sid w (S iteration) topic h) as Hc.
  destruct (cycle upper sid w (S iteration) topic h) as [[res h1] acts].
  destruct Hc as [_ Hc].
  destruct (investigation w (S iteration) topic) as [ir | e].
  2:{ destruct Hc as (-> & Hcalls & _).
      destruct (except_handler_spec sid e topic h1) as [agent ->].
      rewrite calls_app, Hcalls. done. }
  destruct Hc as [Hcalls Hc].
  destruct (analysis w (S iteration) ir) as [ar | e].
  2:{ destruct Hc as (-> & _).
      destruct (except_handler_spec sid e topic h1) as [agent ->].
      rewrite calls_app, Hcalls. done. }
  assert (Hhead : forall rest, calls Analyst (acts ++ rest) = Ok <$> a :: ars -> ar = a).
  { intros rest. rewrite calls_app, Hcalls. by intros [= ->]. }
  destruct (verdict ar) eqn:Hv.
  - destruct Hc as (_ & _ & Hc).
    destruct (writing w (S iteration) ir ar); subst res.
    + intros Hars. rewrite <- (app_nil_r acts) in Hars. apply Hhead in Hars. congruence.
    + destruct (except_handler_spec sid e topic h1) as [agent ->].
      intros Hars%Hhead. congruence.
  - destruct Hc as [_ Hc]. destruct (S iteration <? MAX_ITERATIONS); destruct Hc as [-> _].
    + destruct (while_loop upper sid w fuel (S iteration) _ h1) as [[r h2] acts'].
      intros Hars%Hhead. congruence.
    + intros Hars. rewrite <- (app_nil_r acts) in Hars. apply Hhead in Hars. congruence.
  - destruct Hc as (Hw & Hb & ->).
    specialize (IH (S iteration) topic h1 ars ltac:(lia) ltac:(cbn in Hlen; lia) Hamb').
    destruct (while_loop upper sid w fuel (S iteration) topic h1) as [[r h2] acts'].
    rewrite !calls_app, backtrackings_app, Hcalls, Hw, Hb. cbn [app fmap list_fmap].
    intros [= _ Hars]. by apply IH.
Qed.
End Run.

(** X10.  As soon as a worker raises, the run ends: it returns status
    "error" with the exception text in the error message and no article, the
    error event is the last thing published, and no worker is called after
    the one that raised. *)
Theorem worker_failure_ends_run (upper : str -> str) (sid : str) (w : Workers)
    (topic : str) (h : Handler) (e : str) :
  Raises e ∈ outcomes (run upper sid w topic h).2 ->
  exists res agent,
    (run upper sid w topic h).1.1 = Some res
    /\ status res = lit "error"
    /\ error res = Some (lit "Error durante ejecución de crew: " ++ e)
    /\ article res = None
    /\ last (run upper sid w topic h).2
       = Some (Emit (error_event agent (lit "Error durante ejecución de crew: " ++ e)))
    /\ last (outcomes (run upper sid w topic h).2) = Some (Raises e).
Proof.
  unfold run.
  pose proof (while_loop_raise upper sid w (S MAX_ITERATIONS) 0 topic h e) as H.
  by destruct (while_loop upper sid w (S MAX_ITERATIONS) 0 topic h) as [[r h'] acts].
Qed.

(** The validator fails on the second cycle. *)
Definition failing_analyst : Workers :=
  {| investigation := fun _ _ => Ok (lit "informe");
     analysis := fun i _ => if i <? 2 then Ok (lit "RECHAZADO: sin fuentes")
                            else Raises (lit "timeout");
     writing := fun _ _ _ => Ok (lit "# Titular") |}.

Lemma worker_failure_ends_run_witness :
  let result := run Py.ascii_upper (lit "s1") failing_analyst (lit "IA") h0 in
  Raises (lit "timeout") ∈ outcomes result.2
  /\ exists res agent,
       result.1.1 = Some res
       /\ status res = lit "error"
       /\ error res = Some (lit "Error durante ejecución de crew: " ++ lit "timeout")
       /\ article res = None
       /\ last result.2
          = Some (Emit (error_event agent
                          (lit "Error durante ejecución de crew: " ++ lit "timeout")))
       /\ last (outcomes result.2) = Some (Raises (lit "timeout")).
Proof.
  cbn zeta.
  assert (Hin : Raises (lit "timeout")
                ∈ outcomes (run Py.ascii_upper (lit "s1") failing_analyst (lit "IA") h0).2).
  { vm_compute. do 3 apply list_elem_of_further. apply list_elem_of_here. }
  split; [exact Hin |].
  exact (worker_failure_ends_run Py.ascii_upper (lit "s1") failing_analyst (lit "IA") h0
           (lit "timeout") Hin).
Defined.

(** X11.  The writer is called at most once in a run, and only when the
    last output of the validator is Approved: content that was rejected, or
    on which no verdict was given, never reaches the writer. *)
Theorem composer_only_after_approval (upper : str -> str) (sid : str) (w : Workers)
    (topic : str) (h : Handler) (k : Kickoff) :
  k ∈ calls Writer (run upper sid w topic h).2 ->
  calls Writer (run upper sid w topic h).2 = [k]
  /\ exists ar, last (calls Analyst (run upper sid w topic h).2) = Some (Ok ar)
               /\ spec_verdict upper (lit "APROBADO") (lit "RECHAZADO") ar = Approved.
Proof.
  unfold run.
  pose proof (while_loop_writer upper sid w (S MAX_ITERATIONS) 0 topic h k) as H.
  by destruct (while_loop upper sid w (S MAX_ITERATIONS) 0 topic h) as [[r h'] acts].
Qed.

Lemma composer_only_after_approval_witness :
  let result := run Py.ascii_upper (lit "s1") approving (lit "IA") h0 in
  Ok (lit "# Titular") ∈ calls Writer result.2
  /\ calls Writer result.2 = [Ok (lit "# Titular")]
  /\ exists ar, last (calls Analyst result.2) = Some (Ok ar)
               /\ spec_verdict Py.ascii_upper (lit "APROBADO") (lit "RECHAZADO") ar
                  = Approved.
Proof.
  cbn zeta.
  assert (Hin : Ok (lit "# Titular")
                ∈ calls Writer (run Py.ascii_upper (lit "s1") approving (lit "IA") h0).2).
  { vm_compute. apply list_elem_of_here. }
  split; [exact Hin |].
  exact (composer_only_after_approval Py.ascii_upper (lit "s1") approving (lit "IA") h0
           _ Hin).
Defined.

(** X12.  The topic in the returned dictionary is the submitted topic
    followed by what backtracking appended: at most 217 characters per
    backtrack event, and a run publishes at most MAX_ITERATIONS - 1 = 2
    backtrack events.  The session id returned is the crew's. *)
Theorem topic_grows_boundedly (upper : str -> str) (sid : str) (w : Workers)
    (topic : str) (h : Handler) :
  exists res suffix,
    (run upper sid w topic h).1.1 = Some res
    /\ Crew.topic res = topic ++ suffix
    /\ session_id res = sid
    /\ length suffix <= 217 * length (backtrackings (run upper sid w topic h).2)
    /\ length (backtrackings (run upper sid w topic h).2) <= 2.
Proof.
  unfold run.
  pose proof (while_loop_topic upper sid w (S MAX_ITERATIONS) 0 topic h ltac:(lia)) as H.
  destruct (while_loop upper sid w (S MAX_ITERATIONS) 0 topic h) as [[r h'] acts].
  destruct H as (res & suffix & ? & ? & ? & ? & Hcount).
  exists res, suffix. unfold MAX_ITERATIONS in Hcount. cbn in Hcount |- *.
  repeat split; try done.
Qed.

(** X13.  Every payload a run publishes respects the size limit of its
    callback: 200 characters for a task, 400 for an agent's output, 300 for
    a backtrack feedback, 500 for the final result. *)
Theorem published_payloads_bounded (upper : str -> str) (sid : str) (w : Workers)
    (topic : str) (h : Handler) :
  Forall payload_bounded (run upper sid w topic h).2.
Proof.
  unfold run.
  pose proof (while_loop_payloads upper sid w (S MAX_ITERATIONS) 0 topic h) as H.
  by destruct (while_loop upper sid w (S MAX_ITERATIONS) 0 topic h) as [[r h'] acts].
Qed.

(** X14.  A run that returns an article has published it last: the final
    action is the [crew_finish] event with the first 500 characters of the
    article. *)
Theorem article_published_last (upper : str -> str) (sid : str) (w : Workers)
    (topic : str) (h : Handler) (res : RunResult) (a : str) :
  (run upper sid w topic h).1.1 = Some res ->
  article res = Some a ->
  last (run upper sid w topic h).2 = Some (Emit (crew_finish (Py.slice_to 500 a))).
Proof.
  unfold run.
  pose proof (while_loop_finish upper sid w (S MAX_ITERATIONS) 0 topic h) as H.
  destruct (while_loop upper sid w (S MAX_ITERATIONS) 0 topic h) as [[r h'] acts].
  cbn. apply H.
Qed.

Lemma article_published_last_witness :
  let result := run Py.ascii_upper (lit "s1") approving (lit "IA") h0 in
  (article <$> result.1.1) = Some (Some (lit "# Titular"))
  /\ last result.2 = Some (Emit (crew_finish (Py.slice_to 500 (lit "# Titular")))).
Proof.
  cbn zeta. split; [vm_compute; reflexivity |].
  destruct (run Py.ascii_upper (lit "s1") approving (lit "IA") h0).1.1 as [res|] eqn:E.
  - apply (article_published_last Py.ascii_upper (lit "s1") approving (lit "IA") h0 res
             (lit "# Titular") E).
    vm_compute in E. by inversion E.
  - vm_compute in E. discriminate.
Defined.

(** X15.  When the validator is called MAX_ITERATIONS times and never gives
    a verdict, the run ends with the error "No se logró aprobación después de
    3 iteraciones", the topic unchanged, no backtrack event and no call to the
    writer. *)
Theorem all_ambiguous_exhausts (upper : str -> str) (sid : str) (w : Workers)
    (topic : str) (h : Handler) (ars : list str) :
  calls Analyst (run upper sid w topic h).2 = Ok <$> ars ->
  length ars = MAX_ITERATIONS ->
  Forall (fun a => spec_verdict upper (lit "APROBADO") (lit "RECHAZADO") a = Ambiguous)
         ars ->
  (run upper sid w topic h).1.1
    = Some {| status := lit "error";
              topic := topic;
              article := None;
              error := Some (lit "No se logró aprobación después de "
                               ++ Py.of_int 3 ++ lit " iteraciones");
              iterations := None;
              session_id := sid |}
  /\ backtrackings (run upper sid w topic h).2 = []
  /\ calls Writer (run upper sid w topic h).2 = [].
Proof.
  unfold run. intros Hcalls Hlen Hamb.
  pose proof (while_loop_all_ambiguous upper sid w (S MAX_ITERATIONS) 0 topic h ars
                ltac:(lia) ltac:(lia) Hamb) as H.
  destruct (while_loop upper sid w (S MAX_ITERATIONS) 0 topic h) as [[r h'] acts].
  cbn in Hcalls |- *. by apply H.
Qed.

Lemma all_ambiguous_exhausts_witness :
  let feedback := lit "sin veredicto claro" in
  let result := run Py.ascii_upper (lit "s1") undecided (lit "IA") h0 in
  calls Analyst result.2 = Ok <$> [feedback; feedback; feedback]
  /\ (error <$> result.1.1)
     = Some (Some (lit "No se logró aprobación después de "
                     ++ Py.of_int 3 ++ lit " iteraciones"))
  /\ (Crew.topic <$> result.1.1) = Some (lit "IA")
  /\ backtrackings result.2 = []
  /\ calls Writer result.2 = [].
Proof.
  cbn zeta.
  assert (Hcalls : calls Analyst (run Py.ascii_upper (lit "s1") undecided (lit "IA") h0).2
                   = Ok <$> [lit "sin veredicto claro"; lit "sin veredicto claro";
                             lit "sin veredicto claro"]) by (vm_compute; reflexivity).
  split; [exact Hcalls |].
  destruct (all_ambiguous_exhausts Py.ascii_upper (lit "s1") undecided (lit "IA") h0 _
              Hcalls eq_refl ltac:(by repeat constructor)) as (-> & -> & ->).
  by repeat split.
Defined.

End CrewRun.

(* ===================================================================== *)
(** * app.py and src/crew.py: a session from submission to result         *)
(* ===================================================================== *)

Module Sessions.
Import Crew App.

(** Events [app.py] itself sends to the room of a session. *)
Inductive SocketEvent :=
| generation_complete (room : str) (result : RunResult)
| generation_error (room : str) (error : str).

(** The module-level state of the server.  The dictionary of a session in
    [active_sessions] starts with the three keys of [SessionInfo];
    [finished_at] and [session_error] hold the keys ["finished_at"] and
    ["error"] that [run_crew_async] adds to it, by session id. *)
Record Server := {
  base : State;
  finished_at : gmap str str;
  session_error : gmap str str;
  results_cache : gmap str RunResult;
  global_callback : option (str * Handler);     (* [_global_callback] of callbacks.py *)
  socket : list SocketEvent
}.

(** [RealtimeAgentCallback(session_id)] *)
Definition new_handler : Handler := {| current_agent := None; task_counter := 0 |}.

(** [get_callback_handler(session_id)]: the handler, which is also the new
    value of the global. *)
Definition get_callback_handler (session_id : str) (g : option (str * Handler)) : Handler :=
  match g with
  | Some (s, h) => if bool_decide (s = session_id) then h else new_handler
  | None => new_handler
  end.

(** What [run_crew_async] can meet besides a result. *)
Inductive AsyncExn :=
| AgentSetup (e : str)        (* raised while [NewsCrew.__init__] builds the agents *)
| KeyError (key : str).       (* [active_sessions[session_id]] on an unknown id *)

Section Async.
Variable upper : str -> str.
Variable isalnum : Py.char -> bool.
(** [repr] of a string, for [str(KeyError(key))]. *)
Variable repr : str -> str.
Variable w : Workers.
(** Building the four agents: [None], or the text of the exception raised. *)
Variable create_agents : option str.

Definition str_exn (e : AsyncExn) : str :=
  match e with
  | AgentSetup e => e
  | KeyError key => repr key
  end.

(** [generate_news_article(topic, session_id, current_date)]: the outcome
    ([None] if the run were not to return), the handler left in the global
    and the actions of the run. *)
Definition generate_news_article (topic session_id : str) (g : option (str * Handler))
  : option (AsyncExn + RunResult) * option (str * Handler) * list Action :=
  let h := get_callback_handler session_id g in
  match create_agents with
  | Some e => (Some (inl (AgentSetup e)), Some (session_id, h), [])
  | None =>
    let '(r, h', acts) := run upper session_id w topic h in
    (inr <$> r, Some (session_id, h'), acts)
  end.

(** The formatting step of [run_crew_async]. *)
Definition format_result (result : RunResult) : RunResult :=
  match article result with
  | Some (c :: a) =>
    if bool_decide (Crew.status result = lit "success") then
      {| Crew.status := Crew.status result;
         Crew.topic := Crew.topic result;
         article := Some (Formatting.format_news_article isalnum (c :: a));
         error := error result;
         iterations := iterations result;
         session_id := session_id result |}
    else result
  | Some [] | None => result
  end.

Definition set_status (session_id status : str) (st : State) : State :=
  {| active_sessions :=
       alter (fun i => {| App.topic := App.topic i; started_at := started_at i;
                          App.status := status |})
             session_id (active_sessions st);
     threads := threads st |}.

(** The [except Exception as e] clause of [run_crew_async]; the second
    component is false when the clause itself raises. *)
Definition async_except (e : AsyncExn) (session_id : str) (sv : Server) : Server * bool :=
  let error_msg := lit "Error en crew async: " ++ str_exn e in
  let socket' := socket sv ++ [generation_error session_id error_msg] in
  match active_sessions (base sv) !! session_id with
  | None =>
    ({| base := base sv; finished_at := finished_at sv; session_error := session_error sv;
        results_cache := results_cache sv; global_callback := global_callback sv;
        socket := socket' |}, false)
  | Some _ =>
    ({| base := set_status session_id (lit "error") (base sv);
        finished_at := finished_at sv;
        session_error := <[session_id := error_msg]> (session_error sv);
        results_cache := results_cache sv; global_callback := global_callback sv;
        socket := socket' |}, true)
  end.

(** [run_crew_async(topic, session_id)]; [now] is the time at which the run
    ends.  Returns the state, the actions of the run and whether the thread
    ended without an unhandled exception. *)
Definition run_crew_async (topic session_id now : str) (sv : Server)
  : Server * list Action * bool :=
  let '(outcome, g, acts) := generate_news_article topic session_id (global_callback sv) in
  let sv := {| base := base sv; finished_at := finished_at sv;
               session_error := session_error sv; results_cache := results_cache sv;
               global_callback := g; socket := socket sv |} in
  match outcome with
  | None => (sv, acts, false)
  | Some (inl e) => let '(sv, ok) := async_except e session_id sv in (sv, acts, ok)
  | Some (inr result) =>
    let result := format_result result in
    match active_sessions (base sv) !! session_id with
    | None =>
      let '(sv, ok) := async_except (KeyError session_id) session_id sv in (sv, acts, ok)
    | Some _ =>
      ({| base := set_status session_id (Crew.status result) (base sv);
          finished_at := <[session_id := now]> (finished_at sv);
          session_error := session_error sv;
          results_cache := <[session_id := result]> (results_cache sv);
          global_callback := global_callback sv;
          socket := socket sv ++ [generation_complete session_id result] |},
       acts, true)
    end
  end.
End Async.

(** Answers of [get_result]. *)
Inductive ResultReply :=
| NotFound                                         (* 404, "Sesión no encontrada" *)
| Cached (result : RunResult)                      (* the cached dictionary *)
| Pending (status topic started_at : str).         (* status, topic, started_at *)

(** [get_result(session_id)] *)
Definition get_result (session_id : str) (sv : Server) : ResultReply :=
  match active_sessions (base sv) !! session_id with
  | None => NotFound
  | Some session_info =>
    match results_cache sv !! session_id with
    | Some result => Cached result
    | None => Pending (App.status session_info) (App.topic session_info)
                      (started_at session_info)
    end
  end.

(** The submission endpoint on the whole state. *)
Definition submit (body : Exn + Json) (uuid now : str) (sv : Server) : Reply * Server :=
  let '(reply, st) := generate_article body uuid now (base sv) in
  (reply, {| base := st; finished_at := finished_at sv; session_error := session_error sv;
             results_cache := results_cache sv; global_callback := global_callback sv;
             socket := socket sv |}).

End Sessions.

Module SessionsFacts.
Import Crew App Sessions CrewFacts AppFacts.

(** X16.  After an accepted submission the session can be polled at once:
    [get_result] answers "running" with the stripped topic and the start
    time, provided the fresh id has no cached result; the answers for the
    other ids do not change. *)
Theorem poll_after_submit (body : Exn + Json) (uuid now s : str) (sv : Server) :
  submitted_topic body = Some s ->
  has_text s ->
  results_cache sv !! uuid = None ->
  let '(reply, sv') := submit body uuid now sv in
  reply = Started uuid (strip s)
  /\ get_result uuid sv' = Pending (lit "running") (strip s) now
  /\ (forall sid, sid <> uuid -> get_result sid sv' = get_result sid sv).
Proof.
  intros Hs Htext Hcache. unfold submit.
  destruct (generate_article_cases body uuid now (base sv))
    as [(s' & Hs' & Hne & ->) | (reply & _ & _ & _ & Hnone)].
  - assert (s' = s) as -> by congruence.
    split; [done |]. unfold get_result; cbn. split.
    + by rewrite lookup_insert_eq, Hcache.
    + intros sid Hsid. by rewrite lookup_insert_ne.
  - destruct (strip_has_text s Htext). by apply Hnone.
Qed.

Definition empty_server : Server :=
  {| base := empty_state; finished_at := ∅; session_error := ∅; results_cache := ∅;
     global_callback := None; socket := [] |}.

Lemma poll_after_submit_witness :
  let body := inr (JObj [(lit "topic", JStr (lit " IA "))]) in
  submitted_topic body = Some (lit " IA ")
  /\ has_text (lit " IA ")
  /\ results_cache empty_server !! lit "u1" = None
  /\ get_result (lit "u1") (submit body (lit "u1") (lit "t0") empty_server).2
     = Pending (lit "running") (lit "IA") (lit "t0").
Proof.
  cbn zeta.
  assert (Ht : has_text (lit " IA ")) by (right; left; reflexivity).
  split; [reflexivity |]. split; [exact Ht |]. split; [reflexivity |].
  pose proof (poll_after_submit (inr (JObj [(lit "topic", JStr (lit " IA "))]))
                (lit "u1") (lit "t0") (lit " IA ") empty_server eq_refl Ht eq_refl) as H.
  destruct (submit _ _ _ _) as [reply sv'].
  exact (proj1 (proj2 H)).
Defined.

Section Async.
Variable upper : str -> str.
Variable isalnum : Py.char -> bool.
Variable repr : str -> str.
Variable w : Workers.

Local Abbreviation async := (run_crew_async upper isalnum repr w).

(** The result of the run a session gets, when the agents can be built. *)
Definition run_of (topic sid : str) (sv : Server) : option RunResult :=
  (run upper sid w topic (get_callback_handler sid (global_callback sv))).1.1.

Lemma run_returns (topic sid : str) (sv : Server) :
  exists result, run_of topic sid sv = Some result
    /\ (success_shape result \/ error_shape result).
Proof.
  unfold run_of, run.
  pose proof (while_loop_spec upper sid w (S MAX_ITERATIONS) 0 topic
                (get_callback_handler sid (global_callback sv)) ltac:(lia)) as H.
  destruct (while_loop upper sid w (S MAX_ITERATIONS) 0 topic _) as [[r h'] acts].
  destruct H as (res & -> & _ & _ & _ & Hshape). by exists res.
Qed.

(** C3, as amended.  The run of a session always ends, after at most
    MAX_ITERATIONS = 3 research/validate cycles, the validator being called
    at most once per cycle.  When the crew of the session is built the loop
    runs at least one cycle and [run] returns; on success the [iterations]
    field is the number of cycles.  When the agents cannot be built the
    session fails before the loop: no worker is called, no cycle is run. *)
Theorem session_cycles_within_bound (create_agents : option str) (topic sid now : str)
    (sv : Server) :
  let '(_, acts, _) := async create_agents topic sid now sv in
  let cycles := length (calls Investigator acts) in
  cycles <= MAX_ITERATIONS
  /\ MAX_ITERATIONS = 3
  /\ length (calls Analyst acts) <= cycles
  /\ match create_agents with
     | Some _ => acts = [] /\ cycles = 0
     | None =>
       exists result,
         run_of topic sid sv = Some result
         /\ 1 <= cycles
         /\ (forall n, iterations result = Some n -> n = cycles)
     end.
Proof.
  unfold run_crew_async, generate_news_article, run_of.
  destruct create_agents as [e|].
  - unfold async_except. cbn. destruct (active_sessions (base sv) !! sid); cbn;
      (split; [unfold MAX_ITERATIONS; lia | by repeat split]).
  - destruct (run_terminates_within_bound upper sid w topic
                (get_callback_handler sid (global_callback sv)))
      as (r & h' & acts & -> & Hc & Ha & H3 & Hn).
    unfold async_except. cbn.
    destruct (active_sessions (base sv) !! sid); cbn;
      (split; [lia |]; split; [done |]; split; [done |]; exists r; split; [done |];
       split; [lia | done]).
Qed.

(** X17.  When the run of a registered session returns, its result, with
    the article formatted, is cached, stored as the session's status,
    announced by a [generation_complete] event, and is what [get_result]
    answers from then on; topic and start time of the session stay. *)
Theorem completed_session_is_cached (topic sid now : str) (sv : Server)
    (info : SessionInfo) :
  active_sessions (base sv) !! sid = Some info ->
  exists result,
    run_of topic sid sv = Some result
    /\ let '(sv', _, ok) := async None topic sid now sv in
       ok = true
       /\ get_result sid sv' = Cached (format_result isalnum result)
       /\ active_sessions (base sv') !! sid
          = Some {| App.topic := App.topic info; started_at := started_at info;
                    App.status := Crew.status result |}
       /\ finished_at sv' !! sid = Some now
       /\ socket sv'
          = socket sv ++ [generation_complete sid (format_result isalnum result)].
Proof.
  intros Hinfo. destruct (run_returns topic sid sv) as (result & Hrun & _).
  exists result. split; [done |].
  unfold run_crew_async, generate_news_article, run_of in *.
  destruct (run upper sid w topic _) as [[r h'] acts]. cbn in Hrun. subst r.
  cbn. rewrite Hinfo. cbn. split; [done |].
  assert (Hst : Crew.status (format_result isalnum result) = Crew.status result).
  { unfold format_result. destruct (article result) as [[|c a]|]; [done | | done].
    by case_bool_decide. }
  unfold get_result. cbn. rewrite lookup_alter, decide_True by done.
  rewrite Hinfo, !lookup_insert_eq, Hst. by repeat split.
Qed.

(** X18.  The article cached for a session never holds three newlines in a
    row; when the writer's text is not empty, it is that text formatted. *)
Theorem cached_article_is_formatted (topic sid now : str) (sv : Server)
    (info : SessionInfo) (cached : RunResult) (a : str) :
  active_sessions (base sv) !! sid = Some info ->
  results_cache (async None topic sid now sv).1.1 !! sid = Some cached ->
  article cached = Some a ->
  Py.contains FormattingFacts.three_newlines a = false
  /\ exists final_article,
       (article <$> run_of topic sid sv) = Some (Some final_article)
       /\ a = Formatting.format_news_article isalnum final_article.
Proof.
  intros Hinfo. destruct (run_returns topic sid sv) as (result & Hrun & Hshape).
  unfold run_crew_async, generate_news_article, run_of in *.
  destruct (run upper sid w topic _) as [[r h'] acts]. cbn in Hrun. subst r.
  cbn. rewrite Hinfo. cbn. rewrite lookup_insert_eq. intros [= <-].
  unfold format_result.
  destruct Hshape as [(Hst & [fa Hfa] & _) | (_ & Hnone & _)].
  2:{ rewrite Hnone. by rewrite Hnone. }
  rewrite Hfa. destruct fa as [|c fa].
  - rewrite Hfa. intros [= <-]. split; [done |]. by exists [].
  - rewrite bool_decide_eq_true_2 by done.
    assert (Hclean : Py.contains FormattingFacts.three_newlines
                       (Formatting.format_news_article isalnum (c :: fa)) = false).
    { unfold Formatting.format_news_article, Formatting.re_sub.
      apply FormattingFacts.collapse_newlines_spec. lia. }
    remember (Formatting.format_news_article isalnum (c :: fa)) as out eqn:Hout.
    cbn [article]. intros [= <-]. split; [exact Hclean |].
    exists (c :: fa). split; [| exact Hout]. cbn. congruence.
Qed.

(** X19.  When the agents of a registered session cannot be built, no worker
    is called and nothing is cached: the session is marked "error", the
    cause is stored with it and a [generation_error] event is sent. *)
Theorem setup_failure_recorded (topic sid now e : str) (sv : Server) (info : SessionInfo) :
  active_sessions (base sv) !! sid = Some info ->
  let '(sv', acts, ok) := async (Some e) topic sid now sv in
  ok = true
  /\ acts = []
  /\ active_sessions (base sv') !! sid
     = Some {| App.topic := App.topic info; started_at := started_at info;
               App.status := lit "error" |}
  /\ session_error sv' !! sid = Some (lit "Error en crew async: " ++ e)
  /\ results_cache sv' = results_cache sv
  /\ finished_at sv' = finished_at sv
  /\ socket sv' = socket sv ++ [generation_error sid (lit "Error en crew async: " ++ e)].
Proof.
  intros Hinfo. unfold run_crew_async, generate_news_article, async_except. cbn.
  rewrite Hinfo. cbn. rewrite lookup_alter, decide_True by done.
  rewrite Hinfo, lookup_insert_eq. by repeat split.
Qed.

(** X20.  Whatever happens in the run of one session, the entries, cached
    results and [get_result] answers of the other sessions are untouched, and
    no session is created or removed. *)
Theorem other_sessions_untouched (create_agents : option str) (topic sid now : str)
    (sv : Server) :
  let sv' := (async create_agents topic sid now sv).1.1 in
  (forall sid', sid' <> sid ->
     active_sessions (base sv') !! sid' = active_sessions (base sv) !! sid'
     /\ results_cache sv' !! sid' = results_cache sv !! sid'
     /\ finished_at sv' !! sid' = finished_at sv !! sid'
     /\ session_error sv' !! sid' = session_error sv !! sid'
     /\ get_result sid' sv' = get_result sid' sv)
  /\ dom (active_sessions (base sv')) = dom (active_sessions (base sv)).
Proof.
  cbn zeta. unfold run_crew_async, generate_news_article, async_except.
  destruct create_agents as [e|].
  - cbn. destruct (active_sessions (base sv) !! sid) eqn:Hs; cbn.
    + split; [| by rewrite dom_alter_L].
      intros sid' Hne. unfold get_result; cbn.
      rewrite lookup_alter_ne, lookup_insert_ne by done. by repeat split.
    + split; [| done]. intros sid' Hne. by repeat split.
  - destruct (run upper sid w topic _) as [[[r|] h'] acts]; cbn.
    + destruct (active_sessions (base sv) !! sid) eqn:Hs; cbn.
      * split; [| by rewrite dom_alter_L].
        intros sid' Hne. unfold get_result; cbn.
        rewrite lookup_alter_ne, !lookup_insert_ne by done. by repeat split.
      * split; [| done]. intros sid' Hne. by repeat split.
    + split; [| done]. intros sid' Hne. by repeat split.
Qed.

(** X21.  A run for an id that is not registered registers nothing and
    caches nothing: a [generation_error] event is sent and the thread ends
    with an unhandled [KeyError]. *)
Theorem unknown_session_not_created (create_agents : option str) (topic sid now : str)
    (sv : Server) :
  active_sessions (base sv) !! sid = None ->
  let '(sv', _, ok) := async create_agents topic sid now sv in
  ok = false
  /\ base sv' = base sv
  /\ results_cache sv' = results_cache sv
  /\ get_result sid sv' = NotFound
  /\ exists error, socket sv' = socket sv ++ [generation_error sid error].
Proof.
  intros Hs.
  assert (Hunknown : forall sv', base sv' = base sv -> get_result sid sv' = NotFound).
  { intros sv' Hb. unfold get_result. by rewrite Hb, Hs. }
  unfold run_crew_async, generate_news_article, async_except.
  destruct create_agents as [e|].
  - cbn [base]. rewrite Hs. repeat split; [by apply Hunknown | by eexists].
  - pose proof (run_returns topic sid sv) as (result & Hrun & _). unfold run_of in Hrun.
    destruct (run upper sid w topic _) as [[r h'] acts]. cbn in Hrun. subst r.
    cbn [fmap option_fmap option_map base]. rewrite !Hs. cbn [base]. rewrite ?Hs.
    repeat split; [by apply Hunknown | by eexists].
Qed.
End Async.

(** ** A concrete session *)

(** [str.isalnum] on ASCII characters. *)
Definition ascii_isalnum (c : Py.char) : bool :=
  ((48 <=? c) && (c <=? 57) || (65 <=? c) && (c <=? 90) || (97 <=? c) && (c <=? 122))%N.

(** [repr] of a string without quotes or escapes. *)
Definition plain_repr (s : str) : str := [39%N] ++ s ++ [39%N].

Definition u1_info : SessionInfo :=
  {| App.topic := lit "IA"; started_at := lit "t0"; App.status := lit "running" |}.

(** The state after the submission of the topic " IA " under the id "u1". *)
Definition registered : Server :=
  (submit (inr (JObj [(lit "topic", JStr (lit " IA "))])) (lit "u1") (lit "t0")
          empty_server).2.

Lemma registered_u1 : active_sessions (base registered) !! lit "u1" = Some u1_info.
Proof. vm_compute. reflexivity. Qed.

(** C3, as stated, fails: the session "u1", submitted and registered, whose
    agents cannot be built (no API key, say) ends with status "error" without
    a single research/validate cycle. *)
Lemma session_with_zero_cycles :
  let '(sv', acts, ok) :=
    run_crew_async Py.ascii_upper ascii_isalnum plain_repr approving
      (Some (lit "sin clave")) (lit "IA") (lit "u1") (lit "t1") registered in
  active_sessions (base registered) !! lit "u1" = Some u1_info
  /\ length (calls Investigator acts) = 0
  /\ ~ (1 <= length (calls Investigator acts))
  /\ get_result (lit "u1") sv' = Pending (lit "error") (lit "IA") (lit "t0").
Proof.
  split; [exact registered_u1 |]. split; [reflexivity |].
  split; [cbn; lia |]. vm_compute. reflexivity.
Qed.

Lemma completed_session_is_cached_witness :
  active_sessions (base registered) !! lit "u1" = Some u1_info
  /\ exists result,
       run_of Py.ascii_upper approving (lit "IA") (lit "u1") registered = Some result
       /\ get_result (lit "u1")
            (run_crew_async Py.ascii_upper ascii_isalnum plain_repr approving None
               (lit "IA") (lit "u1") (lit "t1") registered).1.1
          = Cached (format_result ascii_isalnum result).
Proof.
  split; [exact registered_u1 |].
  destruct (completed_session_is_cached Py.ascii_upper ascii_isalnum plain_repr approving
              (lit "IA") (lit "u1") (lit "t1") registered u1_info registered_u1)
    as (result & Hrun & H).
  exists result. split; [exact Hrun |].
  destruct (run_crew_async _ _ _ _ _ _ _ _ _) as [[sv' acts] ok].
  exact (proj1 (proj2 H)).
Defined.

Lemma cached_article_is_formatted_witness :
  let sv' := (run_crew_async Py.ascii_upper ascii_isalnum plain_repr approving None
                (lit "IA") (lit "u1") (lit "t1") registered).1.1 in
  (article <$> results_cache sv' !! lit "u1") = Some (Some (lit "# Titular"))
  /\ Py.contains FormattingFacts.three_newlines (lit "# Titular") = false.
Proof.
  cbn zeta.
  destruct (results_cache (run_crew_async Py.ascii_upper ascii_isalnum plain_repr approving
              None (lit "IA") (lit "u1") (lit "t1") registered).1.1 !! lit "u1")
    as [cached|] eqn:E; [| vm_compute in E; discriminate].
  assert (Ha : article cached = Some (lit "# Titular")).
  { vm_compute in E. by inversion E. }
  split; [by rewrite <- Ha |].
  exact (proj1 (cached_article_is_formatted Py.ascii_upper ascii_isalnum plain_repr
                  approving (lit "IA") (lit "u1") (lit "t1") registered u1_info cached
                  (lit "# Titular") registered_u1 E Ha)).
Defined.

Lemma setup_failure_recorded_witness :
  active_sessions (base registered) !! lit "u1" = Some u1_info
  /\ session_error
       (run_crew_async Py.ascii_upper ascii_isalnum plain_repr approving
          (Some (lit "sin clave")) (lit "IA") (lit "u1") (lit "t1") registered).1.1
     !! lit "u1"
     = Some (lit "Error en crew async: " ++ lit "sin clave").
Proof.
  split; [exact registered_u1 |].
  pose proof (setup_failure_recorded Py.ascii_upper ascii_isalnum plain_repr approving
                (lit "IA") (lit "u1") (lit "t1") (lit "sin clave") registered u1_info
                registered_u1) as H.
  destruct (run_crew_async _ _ _ _ _ _ _ _ _) as [[sv' acts] ok].
  exact (proj1 (proj2 (proj2 (proj2 H)))).
Defined.

Lemma unknown_session_not_created_witness :
  active_sessions (base empty_server) !! lit "u9" = None
  /\ get_result (lit "u9")
       (run_crew_async Py.ascii_upper ascii_isalnum plain_repr approving None
          (lit "IA") (lit "u9") (lit "t1") empty_server).1.1 = NotFound.
Proof.
  split; [reflexivity |].
  pose proof (unknown_session_not_created Py.ascii_upper ascii_isalnum plain_repr approving
                None (lit "IA") (lit "u9") (lit "t1") empty_server eq_refl) as H.
  destruct (run_crew_async _ _ _ _ _ _ _ _ _) as [[sv' acts] ok].
  exact (proj1 (proj2 (proj2 (proj2 H)))).
Defined.

End SessionsFacts.

(* ===================================================================== *)
(** * format_news.py: the script's copy of the post-processor             *)
(* ===================================================================== *)

Module FormatNews.
Import Formatting.

Section Script.
Variable isalnum : Py.char -> bool.

(** [format_news_article] of format_news.py: the steps of
    [src/formatting.py] without the test for an empty text; its
    [fix_bold_spacing] is the same function, character for character. *)
Definition format_news_article (raw_text : str) : str :=
  let formatted := re_sub [Many Py.isspace 1] [Text [space]] raw_text in
  let formatted := re_sub [One not_nl; Split; Many (only hash) 1; One (only space)]
                          break_between formatted in
  let formatted := re_sub [One not_nl; Split; One (only gt); One (only space)]
                          break_between formatted in
  let formatted := re_sub [One not_nl; Split; One (only dash); One (only space);
                           One (only star); One (only star)]
                          break_between formatted in
  let formatted := re_sub [One not_nl; Split; One (only dash); One (only space); One A_Z]
                          break_between formatted in
  let formatted := fix_bold_spacing isalnum formatted in
  let formatted := re_sub [One not_nl; Split; One (only dash); One (only dash);
                           One (only dash)]
                          break_between formatted in
  let formatted := re_sub [One (only dash); One (only dash); One (only dash); Split;
                           One not_nl]
                          break_between formatted in
  let formatted := re_sub [One lower_es; Split; One upper_es]
                          break_between formatted in
  let formatted := re_sub [Many (only nl) 3] [Text [nl; nl]] formatted in
  formatted.
End Script.

End FormatNews.

(* ===================================================================== *)
(** * More on the post-processor                                          *)
(* ===================================================================== *)

Module FormattingMore.
Import Formatting FormattingFacts.

(** The text without its newlines. *)
Definition remove_nl (s : str) : str := filter (fun c => c <> nl) s.

Lemma remove_nl_app s t : remove_nl (s ++ t) = remove_nl s ++ remove_nl t.
Proof. apply filter_app. Qed.

Lemma remove_nl_cons_nl s : remove_nl (nl :: s) = remove_nl s.
Proof. unfold remove_nl. apply filter_cons_False. intros H. by apply H. Qed.

Lemma remove_nl_id s : Forall (fun c => c <> nl) s -> remove_nl s = s.
Proof.
  induction 1 as [|c s Hc _ IH]; [done |].
  unfold remove_nl in *. etrans; [by apply filter_cons_True |]. f_equal. exact IH.
Qed.

(** ** What a match is made of *)

(** Number of group boundaries of a pattern. *)
Fixpoint splits (atoms : list Atom) : nat :=
  match atoms with
  | [] => 0
  | Split :: atoms' => S (splits atoms')
  | _ :: atoms' => splits atoms'
  end.

(** The groups of a match, put end to end, are the text matched. *)
Definition sound (k : str -> option (list str * str)) (n : nat) : Prop :=
  forall s segs rest, k s = Some (segs, rest) ->
    concat segs ++ rest = s /\ length segs = S n.

Lemma push_sound c s (m m' : list str * str) n :
  concat m.1 ++ m.2 = s /\ length m.1 = S n ->
  push c m = m' ->
  concat m'.1 ++ m'.2 = c :: s /\ length m'.1 = S n.
Proof. intros [<- Hlen] <-. destruct m as [[|seg segs] rest]; [done |]. by cbn. Qed.

Lemma match_many_sound cls k n least :
  sound k n -> sound (match_many cls k least) n.
Proof.
  intros Hk s. revert least. induction s as [|c s IH]; intros least segs rest; cbn [match_many].
  - destruct least; [apply Hk | done].
  - assert (Hstop : match least with O => k (c :: s) | S _ => None end = Some (segs, rest) ->
                    concat segs ++ rest = c :: s /\ length segs = S n).
    { destruct least; [apply Hk | done]. }
    destruct (cls c); [| exact Hstop].
    destruct (match_many cls k (pred least) s) as [[segs' rest']|] eqn:E; [| exact Hstop].
    intros H%(inj Some). apply IH in E.
    exact (push_sound c s (segs', rest') (segs, rest) n E H).
Qed.

Lemma match_atoms_sound atoms : sound (match_atoms atoms) (splits atoms).
Proof.
  induction atoms as [|[cls | cls least |] atoms IH]; intros s segs rest;
    cbn [match_atoms splits].
  - by intros [= <- <-].
  - destruct s as [|c s]; [done |]. destruct (cls c); [| done].
    destruct (match_atoms atoms s) as [[segs' rest']|] eqn:E; [| done].
    cbn [fmap option_fmap option_map]. intros H%(inj Some). apply IH in E.
    exact (push_sound c s (segs', rest') (segs, rest) _ E H).
  - by apply match_many_sound.
  - destruct (match_atoms atoms s) as [[segs' rest']|] eqn:E; [| done].
    intros [= <- <-]. apply IH in E as [<- Hlen]. split; [done |]. cbn. by rewrite Hlen.
Qed.

(** A substitution by [\1\n\n\2] only inserts newlines. *)
Lemma sub_break_words fuel atoms s :
  splits atoms = 1 ->
  remove_nl (sub_from fuel atoms break_between s) = remove_nl s.
Proof.
  intros Hsplits. revert s. induction fuel as [|fuel IH]; intros s; [done |].
  cbn [sub_from].
  destruct (match_atoms atoms s) as [[segs rest]|] eqn:E.
  - apply match_atoms_sound in E as [<- Hlen]. rewrite Hsplits in Hlen.
    destruct segs as [|g1 [|g2 [|g3 segs]]]; try done.
    rewrite !remove_nl_app, IH. cbn. rewrite !remove_nl_app, !app_nil_r.
    rewrite !remove_nl_cons_nl. by rewrite <- app_assoc.
  - destruct s as [|c s]; [done |].
    change (c :: sub_from fuel atoms break_between s)
      with ([c] ++ sub_from fuel atoms break_between s).
    change (c :: s) with ([c] ++ s). by rewrite !remove_nl_app, IH.
Qed.

Lemma remove_nl_take_lead s : remove_nl (take (lead s) s) = [].
Proof.
  induction s as [|c s IH]; [done |]. cbn [lead].
  destruct (c =? nl)%N eqn:E; [| done].
  apply N.eqb_eq in E as ->. cbn [take]. by rewrite remove_nl_cons_nl.
Qed.

(** The last step only removes newlines. *)
Lemma collapse_words fuel s :
  remove_nl (sub_from fuel [Many (only nl) 3] [Text [nl; nl]] s) = remove_nl s.
Proof.
  revert s. induction fuel as [|fuel IH]; intros s; [done |].
  cbn [sub_from match_atoms]. rewrite match_newlines.
  destruct (3 <=? lead s).
  - change (expand [Text [nl; nl]] [take (lead s) s]) with [nl; nl].
    cbn [app]. rewrite !remove_nl_cons_nl, IH.
    transitivity (remove_nl (take (lead s) s ++ drop (lead s) s)); [| by rewrite take_drop].
    by rewrite remove_nl_app, remove_nl_take_lead.
  - destruct s as [|c s]; [done |].
    change (c :: sub_from fuel [Many (only nl) 3] [Text [nl; nl]] s)
      with ([c] ++ sub_from fuel [Many (only nl) 3] [Text [nl; nl]] s).
    change (c :: s) with ([c] ++ s). by rewrite !remove_nl_app, IH.
Qed.

(** ** [split] and the bold markers *)

(** ["**".join(parts)] *)
Fixpoint join_plain (parts : list str) : str :=
  match parts with
  | [] => []
  | part :: rest =>
    part ++ match rest with [] => [] | _ :: _ => [star; star] ++ join_plain rest end
  end.

Lemma cons_head_nonempty c parts : cons_head c parts <> [].
Proof. by destruct parts. Qed.

Lemma split_bold_cons (c c' : Py.char) (s : str) :
  split_bold (c :: c' :: s)
  = if ((c =? star) && (c' =? star))%N then [] :: split_bold s
    else cons_head c (split_bold (c' :: s)).
Proof. done. Qed.

Lemma split_bold_nonempty s : split_bold s <> [].
Proof.
  destruct s as [|c [|c' s]]; [done | done |]. rewrite split_bold_cons.
  destruct ((c =? star) && (c' =? star))%N; [done | apply cons_head_nonempty].
Qed.

Lemma join_plain_cons_head c parts :
  parts <> [] -> join_plain (cons_head c parts) = c :: join_plain parts.
Proof. by destruct parts. Qed.

(** The round trip of [split]: joining the parts of [text.split("**")] with ["**"]
    gives the text back. *)
Lemma split_bold_join s : join_plain (split_bold s) = s.
Proof.
  assert (H : forall n s, length s <= n -> join_plain (split_bold s) = s).
  { clear s. induction n as [|n IH]; intros s Hn.
    - destruct s; [done | cbn in Hn; lia].
    - destruct s as [|c [|c' s]]; [done | done |].
      rewrite split_bold_cons.
      destruct ((c =? star) && (c' =? star))%N eqn:E.
      + apply andb_true_iff in E as [->%N.eqb_eq ->%N.eqb_eq].
        cbn [join_plain app].
        pose proof (split_bold_nonempty s) as Hne.
        destruct (split_bold s) as [|p ps] eqn:Es; [done |].
        rewrite <- Es, IH by (cbn in Hn; lia). done.
      + rewrite join_plain_cons_head by apply split_bold_nonempty.
        rewrite IH by (cbn in Hn |- *; lia). done. }
  by apply (H (length s)).
Qed.

Section Bold.
Variable isalnum : Py.char -> bool.

Lemma join_bold_words i parts :
  remove_nl (join_bold isalnum i parts) = remove_nl (join_plain parts).
Proof.
  revert i. induction parts as [|part rest IH]; intros i; [done |].
  cbn [join_bold join_plain]. rewrite !remove_nl_app. f_equal.
  destruct rest as [|next rest']; [done |].
  rewrite !remove_nl_app, IH. f_equal.
  destruct (Nat.even i).
  - destruct (isalnum_opt isalnum (last part)); [| done].
    by rewrite !remove_nl_cons_nl.
  - destruct (isalnum_opt isalnum (head next)); [| done].
    change [star; star; nl; nl] with ([star; star] ++ [nl; nl]).
    rewrite remove_nl_app. by rewrite !remove_nl_cons_nl, app_nil_r.
Qed.

Lemma bold_words (text : str) :
  remove_nl (fix_bold_spacing isalnum text) = remove_nl text.
Proof.
  unfold fix_bold_spacing. destruct (length (split_bold text) <? 2); [done |].
  by rewrite join_bold_words, split_bold_join.
Qed.
End Bold.

Lemma split_bold_none (s : str) :
  Py.contains [star; star] s = false -> split_bold s = [s].
Proof.
  induction s as [|c s IH]; [done |].
  change (Py.contains [star; star] (c :: s))
    with (Py.startswith (c :: s) [star; star] || Py.contains [star; star] s).
  intros [Hstart Hrest]%orb_false_iff. specialize (IH Hrest).
  destruct s as [|c' s]; [done |].
  rewrite split_bold_cons, IH.
  change (Py.startswith (c :: c' :: s) [star; star])
    with ((star =? c)%N && ((star =? c')%N && true)) in Hstart.
  rewrite andb_true_r, (N.eqb_sym star c), (N.eqb_sym star c') in Hstart.
  by rewrite Hstart.
Qed.

(** ** Whitespace *)

(** Number of characters of the class at the start of a text. *)
Fixpoint run (cls : Py.char -> bool) (s : str) : nat :=
  match s with
  | c :: s' => if cls c then S (run cls s') else 0
  | [] => 0
  end.

Lemma run_le_length cls s : run cls s <= length s.
Proof. induction s as [|c s IH]; cbn; [lia |]. destruct (cls c); cbn; lia. Qed.

(** [cls{least,}] alone takes the whole run of the class. *)
Lemma match_run cls (s : str) (least : nat) :
  match_many cls (match_atoms []) least s
  = if least <=? run cls s then Some ([take (run cls s) s], drop (run cls s) s) else None.
Proof.
  revert least. induction s as [|c s IH]; intros least.
  - by destruct least.
  - cbn [match_many run].
    destruct (cls c) eqn:E.
    + rewrite IH. destruct (pred least <=? run cls s) eqn:Hle.
      * apply Nat.leb_le in Hle.
        replace (least <=? S (run cls s)) with true by (symmetry; apply Nat.leb_le; lia).
        done.
      * apply Nat.leb_gt in Hle.
        replace (least <=? S (run cls s)) with false by (symmetry; apply Nat.leb_gt; lia).
        destruct least; [lia | done].
    + by destruct least.
Qed.

(** Step 0, [re.sub(r"\s+", " ", text)] *)
Definition normalize (text : str) : str := re_sub [Many Py.isspace 1] [Text [space]] text.

(** After step 0 the only whitespace left is the space character. *)
Lemma normalize_spaces fuel (s : str) :
  length s < fuel ->
  Forall (fun c => Py.isspace c = true -> c = space)
         (sub_from fuel [Many Py.isspace 1] [Text [space]] s).
Proof.
  revert s. induction fuel as [|fuel IH]; intros s Hfuel; [lia |].
  cbn [sub_from match_atoms]. rewrite match_run.
  destruct (1 <=? run Py.isspace s) eqn:Hrun.
  - apply Nat.leb_le in Hrun. pose proof (run_le_length Py.isspace s).
    change (expand [Text [space]] [take (run Py.isspace s) s]) with [space].
    cbn [app]. constructor; [done |]. apply IH. rewrite length_drop. lia.
  - apply Nat.leb_gt in Hrun. destruct s as [|c s]; [constructor |].
    constructor; [| apply IH; cbn in Hfuel; lia].
    cbn [run] in Hrun. destruct (Py.isspace c); [lia | done].
Qed.

Lemma normalize_no_newline (text : str) : Forall (fun c => c <> nl) (normalize text).
Proof.
  unfold normalize, re_sub.
  eapply Forall_impl; [apply (normalize_spaces (S (length text))); lia |].
  intros c Hc ->. by specialize (Hc eq_refl).
Qed.

Lemma normalize_nonempty (text : str) : text <> [] -> normalize text <> [].
Proof.
  destruct text as [|c s]; [done |]. intros _.
  unfold normalize, re_sub. cbn [length sub_from match_atoms]. rewrite match_run.
  by destruct (1 <=? run Py.isspace (c :: s)).
Qed.

Section Format.
Variable isalnum : Py.char -> bool.

(** Without its newlines, the formatted text is the text of step 0. *)
Lemma format_words (raw_text : str) :
  remove_nl (format_news_article isalnum raw_text) = normalize raw_text.
Proof.
  destruct raw_text as [|c s]; [done |].
  unfold format_news_article. fold (normalize (c :: s)).
  unfold re_sub at 1. rewrite collapse_words.
  unfold re_sub at 1. rewrite sub_break_words by done.
  unfold re_sub at 1. rewrite sub_break_words by done.
  unfold re_sub at 1. rewrite sub_break_words by done.
  rewrite bold_words.
  unfold re_sub at 1. rewrite sub_break_words by done.
  unfold re_sub at 1. rewrite sub_break_words by done.
  unfold re_sub at 1. rewrite sub_break_words by done.
  unfold re_sub at 1. rewrite sub_break_words by done.
  apply remove_nl_id, normalize_no_newline.
Qed.

(** X22.  The post-processor never changes the words of a text: without
    its newlines, the output is the input with every run of whitespace
    replaced by one space. *)
Theorem format_changes_whitespace_only (raw_text : str) :
  remove_nl (format_news_article isalnum raw_text)
  = re_sub [Many Py.isspace 1] [Text [space]] raw_text.
Proof. apply format_words. Qed.

(** X23.  A text that is not empty is never formatted to the empty text. *)
Theorem format_nonempty (raw_text : str) :
  raw_text <> [] -> format_news_article isalnum raw_text <> [].
Proof.
  intros Hne Hout. apply (normalize_nonempty raw_text Hne).
  by rewrite <- format_words, Hout.
Qed.

(** X24.  The only whitespace in the output is the space and the newline:
    tabs, carriage returns and the like never survive. *)
Theorem format_whitespace_normalised (raw_text : str) :
  Forall (fun c => Py.isspace c = true -> c = space \/ c = nl)
         (format_news_article isalnum raw_text).
Proof.
  apply Forall_forall. intros c Hin Hspace.
  destruct (decide (c = nl)) as [-> | Hnl]; [by right |]. left.
  assert (Hc : c ∈ remove_nl (format_news_article isalnum raw_text)).
  { unfold remove_nl. apply list_elem_of_filter. by split. }
  rewrite format_words in Hc.
  unfold normalize, re_sub in Hc.
  pose proof (normalize_spaces (S (length raw_text)) raw_text ltac:(lia)) as H.
  rewrite Forall_forall in H. by apply (H c Hc).
Qed.

(** X25.  [fix_bold_spacing] only inserts newlines: without them, its
    output is its input. *)
Theorem fix_bold_spacing_inserts_newlines_only (text : str) :
  remove_nl (fix_bold_spacing isalnum text) = remove_nl text.
Proof. apply bold_words. Qed.

(** X26.  A text without the marker [**] is returned by [fix_bold_spacing]
    as it is. *)
Theorem unmarked_text_unchanged (text : str) :
  Py.contains [star; star] text = false -> fix_bold_spacing isalnum text = text.
Proof. intros H. unfold fix_bold_spacing. by rewrite (split_bold_none text H). Qed.

(** X27.  The copy of the post-processor in format_news.py and the one in
    src/formatting.py return the same text for every text: the test for an
    empty text in the latter changes nothing. *)
Theorem script_copy_agrees (raw_text : str) :
  FormatNews.format_news_article isalnum raw_text
  = format_news_article isalnum raw_text.
Proof.
  destruct raw_text as [|c s]; [by vm_compute |].
  unfold FormatNews.format_news_article, format_news_article. reflexivity.
Qed.
End Format.

Lemma format_nonempty_witness :
  lit "hola  mundo" <> []
  /\ format_news_article SessionsFacts.ascii_isalnum (lit "hola  mundo") <> [].
Proof.
  assert (H : lit "hola  mundo" <> []) by (vm_compute; discriminate).
  split; [exact H |].
  exact (format_nonempty SessionsFacts.ascii_isalnum (lit "hola  mundo") H).
Defined.

Lemma unmarked_text_unchanged_witness :
  Py.contains [star; star] (lit "hola *mundo*") = false
  /\ fix_bold_spacing SessionsFacts.ascii_isalnum (lit "hola *mundo*") = lit "hola *mundo*".
Proof.
  split; [reflexivity |].
  exact (unmarked_text_unchanged SessionsFacts.ascii_isalnum (lit "hola *mundo*") eq_refl).
Defined.

End FormattingMore.

(* ===================================================================== *)
(** * src/tools.py: the news search tool                                  *)
(* ===================================================================== *)

Module Tools.
Import App.

(** What [requests.get] followed by [response.json()] can do. *)
Inductive GetOutcome :=
| Timeout                               (* [requests.Timeout] *)
| ConnectionError                       (* [requests.ConnectionError] *)
| OtherError (type_name : str)          (* any other exception of [requests.get] *)
| Answered (status_code : Z) (body : option Json).
    (* a response; [None] when the body is not JSON *)

(** One entry of ["results"] as handed to the agent. *)
Record Formatted := {
  id : nat;
  title : Json;
  content : Json;
  source : Json;
  url : Json;
  date : Json;
  tier : str;
  content_length : nat;
  extraction_method : Json
}.

(** The value given to [json.dumps]. *)
Inductive Output :=
| Failure (message : str)                 (* status "error", results [] *)
| Success (query : str) (total_results deep_sources_count api_sources_count : nat)
          (results : list Formatted).     (* status "success" *)

(** [max(1, min(max_results, 20))] *)
Definition clamp (max_results : Z) : Z := Z.max 1 (Z.min max_results 20).

(** [key in data]; the name of the exception when [data] is not a
    container. *)
Definition key_in (key : str) (data : Json) : str + bool :=
  match data with
  | JObj items => inr (bool_decide (is_Some (lookup_key key items)))
  | JArr items =>
    inr (existsb (fun j => match j with
                           | JStr s => bool_decide (s = key)
                           | _ => false
                           end) items)
  | JStr s => inr (Py.contains key s)
  | JNull | JBool _ | JNum _ => inl (lit "TypeError")
  end.

(** [item.get(key, default)] on an entry that is a dictionary. *)
Definition item_get (key : str) (default : Json) (item : list (str * Json)) : Json :=
  match lookup_key key item with
  | Some v => v
  | None => default
  end.

(** [value in names], for a list of string literals. *)
Definition is_source (names : list str) (v : Json) : bool :=
  match v with
  | JStr s => bool_decide (s ∈ names)
  | _ => false
  end.

Definition deep_names : list str := [lit "La República"; lit "El Comercio"; lit "Infobae"].
Definition api_names : list str := [lit "NewsAPI"; lit "TheNewsAPI"].

(** The keys of a dictionary given by its entries. *)
Definition keys (items : list (str * Json)) : list str := remove_dups items.*1.

(** [len(value)], or the name of the exception raised. *)
Definition py_len (v : Json) : str + nat :=
  match v with
  | JStr s => inr (length s)
  | JArr items => inr (length items)
  | JObj items => inr (length (keys items))
  | JNull | JBool _ | JNum _ => inl (lit "TypeError")
  end.

(** The values [for r in results] goes through; [len(results)], taken
    first for the log, fails on the same values with the same exception. *)
Definition iterate (results : Json) : str + list Json :=
  match results with
  | JArr items => inr items
  | JObj items => inr (JStr <$> keys items)
  | JStr s => inr ((fun c => JStr [c]) <$> s)
  | JNull | JBool _ | JNum _ => inl (lit "TypeError")
  end.

(** The first pass over the results, [r.get("source")] for every entry:
    the entries as dictionaries, or [AttributeError]. *)
Fixpoint as_dicts (items : list Json) : str + list (list (str * Json)) :=
  match items with
  | [] => inr []
  | JObj item :: rest =>
    match as_dicts rest with
    | inr dicts => inr (item :: dicts)
    | inl e => inl e
    end
  | _ :: _ => inl (lit "AttributeError")
  end.

(** The loop [for idx, item in enumerate(results, 1)]. *)
Fixpoint format_items (idx : nat) (items : list (list (str * Json))) : str + list Formatted :=
  match items with
  | [] => inr []
  | item :: rest =>
    let source := item_get (lit "source") (JStr (lit "Fuente desconocida")) item in
    let content := item_get (lit "content") (JStr (lit "Sin contenido")) item in
    let is_deep_source := is_source deep_names source in
    let is_api_source := is_source api_names source in
    match py_len content with
    | inl e => inl e
    | inr n =>
      match format_items (S idx) rest with
      | inl e => inl e
      | inr formatted =>
        inr ({| id := idx;
                title := item_get (lit "title") (JStr (lit "Sin título")) item;
                content := content;
                source := source;
                url := item_get (lit "url") (JStr []) item;
                date := item_get (lit "date") (JStr []) item;
                tier := if is_deep_source then lit "deep"
                        else if is_api_source then lit "api" else lit "unknown";
                content_length := n;
                extraction_method := item_get (lit "method") (JStr (lit "unknown")) item |}
             :: formatted)
      end
    end
  end.

Definition sized (v : Json) : bool :=
  match py_len v with inr _ => true | inl _ => false end.

(** The lengths taken for the log of the tier with the given names:
    [len(r.get("content", ""))] for every entry of the tier. *)
Definition log_lengths (names : list str) (items : list (list (str * Json))) : str + unit :=
  let tier_items :=
    filter (fun item => is_source names (item_get (lit "source") JNull item) = true) items in
  if forallb (fun item => sized (item_get (lit "content") (JStr []) item)) tier_items
  then inr tt else inl (lit "TypeError").

(** [sum(1 for r in formatted_results if r["tier"] == name)] *)
Definition count_tier (name : str) (formatted : list Formatted) : nat :=
  length (filter (fun r => tier r = name) formatted).

Section Run.
Variable base_url : str.

(** [NewsSearchTool._run(query, max_results)] given what the HTTP call
    does.  The second component is the [max_results] sent to the service. *)
Definition _run (default_max_results : Z) (query : str) (max_results : option Z)
    (get : Z -> GetOutcome) : Output * Z :=
  let max_results := match max_results with Some m => m | None => default_max_results end in
  let max_results := clamp max_results in
  let failure_internal e := Failure (lit "Error interno: " ++ e) in
  (match get max_results with
   | Timeout =>
     Failure (lit "La búsqueda excedió el tiempo límite. Intenta con una consulta más específica.")
   | ConnectionError =>
     Failure (lit "ScraperRalf no está disponible. Verifica que el servicio esté corriendo en "
                ++ base_url)
   | OtherError type_name => failure_internal type_name
   | Answered status_code body =>
     if (400 <=? status_code)%Z && (status_code <? 600)%Z then
       Failure (lit "Error del servidor de búsqueda: " ++ Py.of_int status_code)
     else
       match body with
       | None => failure_internal (lit "JSONDecodeError")
       | Some data =>
         match key_in (lit "results") data with
         | inl e => failure_internal e
         | inr false => Failure (lit "Formato de respuesta inválido de ScraperRalf")
         | inr true =>
           match data with
           | JObj fields =>
             let results := item_get (lit "results") JNull fields in
             match iterate results with
             | inl e => failure_internal e
             | inr items =>
               match as_dicts items with
               | inl e => failure_internal e
               | inr dicts =>
                 match log_lengths deep_names dicts with
                 | inl e => failure_internal e
                 | inr _ =>
                   match log_lengths api_names dicts with
                   | inl e => failure_internal e
                   | inr _ =>
                     match format_items 1 dicts with
                     | inl e => failure_internal e
                     | inr formatted =>
                       Success query (length formatted)
                               (count_tier (lit "deep") formatted)
                               (count_tier (lit "api") formatted)
                               formatted
                     end
                   end
                 end
               end
             end
           | _ => failure_internal (lit "TypeError")
           end
         end
       end
   end, max_results).
End Run.

End Tools.

(* ===================================================================== *)
(** * Properties of the news search tool                                  *)
(* ===================================================================== *)

Module ToolsFacts.
Import App Tools.


(** The tier written in an entry, from its source. *)
Definition tier_of (source : Json) : str :=
  if is_source deep_names source then lit "deep"
  else if is_source api_names source then lit "api" else lit "unknown".

Lemma format_items_spec idx dicts formatted :
  format_items idx dicts = inr formatted ->
  id <$> formatted = seq idx (length dicts)
  /\ Forall (fun r => py_len (content r) = inr (content_length r)
                      /\ tier r = tier_of (source r)) formatted.
Proof.
  revert idx formatted.
  induction dicts as [|item rest IH]; intros idx formatted; cbn [format_items].
  - by intros [= <-].
  - destruct (py_len _) as [e|n] eqn:Hlen; [done |].
    destruct (format_items (S idx) rest) as [e|f] eqn:E; [done |].
    intros [= <-]. destruct (IH _ _ E) as [Hids Hall]. split.
    + cbn. by rewrite Hids.
    + constructor; [| exact Hall]. by split.
Qed.

Lemma deep_not_api (v : Json) :
  is_source deep_names v = true -> is_source api_names v = false.
Proof.
  destruct v as [| | | s | |]; try done. cbn [is_source].
  intros H%bool_decide_eq_true. apply bool_decide_eq_false. intros Ha.
  unfold deep_names, api_names in *.
  rewrite !elem_of_cons, elem_of_nil in H. rewrite !elem_of_cons, elem_of_nil in Ha.
  destruct H as [-> | [-> | [-> | []]]]; destruct Ha as [Ha | [Ha | []]];
    vm_compute in Ha; discriminate.
Qed.

Lemma count_tier_deep formatted :
  Forall (fun r => tier r = tier_of (source r)) formatted ->
  count_tier (lit "deep") formatted
  = length (filter (fun r => is_source deep_names (source r) = true) formatted).
Proof.
  unfold count_tier. induction 1 as [|r rest Hr _ IH]; [done |].
  rewrite !filter_cons. unfold tier_of in Hr.
  destruct (is_source deep_names (source r)) eqn:Hd.
  - rewrite decide_True by done. rewrite decide_True by done. cbn. by rewrite IH.
  - rewrite (decide_False (P := false = true)) by done.
    rewrite decide_False; [exact IH |].
    rewrite Hr. destruct (is_source api_names (source r)); vm_compute; discriminate.
Qed.

Lemma count_tier_api formatted :
  Forall (fun r => tier r = tier_of (source r)) formatted ->
  count_tier (lit "api") formatted
  = length (filter (fun r => is_source api_names (source r) = true) formatted).
Proof.
  unfold count_tier. induction 1 as [|r rest Hr _ IH]; [done |].
  rewrite !filter_cons. unfold tier_of in Hr.
  destruct (is_source deep_names (source r)) eqn:Hd.
  - rewrite (deep_not_api _ Hd).
    rewrite (decide_False (P := false = true)) by done.
    rewrite decide_False; [exact IH |].
    rewrite Hr. vm_compute. discriminate.
  - destruct (is_source api_names (source r)) eqn:Ha.
    + rewrite decide_True by done. rewrite decide_True by done. cbn. by rewrite IH.
    + rewrite (decide_False (P := false = true)) by done.
      rewrite decide_False; [exact IH |].
      rewrite Hr. vm_compute. discriminate.
Qed.

Lemma count_tiers_le formatted :
  count_tier (lit "deep") formatted + count_tier (lit "api") formatted <= length formatted.
Proof.
  unfold count_tier. induction formatted as [|r rest IH]; [done |].
  rewrite !filter_cons.
  destruct (decide (tier r = lit "deep")) as [Hd|];
    destruct (decide (tier r = lit "api")) as [Ha|]; cbn [length]; try lia.
  rewrite Hd in Ha. vm_compute in Ha. discriminate.
Qed.

Lemma as_dicts_spec items dicts : as_dicts items = inr dicts -> items = JObj <$> dicts.
Proof.
  revert dicts. induction items as [|[| | | | |item] rest IH]; intros dicts; cbn [as_dicts];
    try done.
  - by intros [= <-].
  - destruct (as_dicts rest) as [e|ds]; [done |]. intros [= <-]. cbn. by rewrite (IH ds).
Qed.

Section Run.
Variable base_url : str.

(** What a successful call went through. *)
Lemma run_success default query max_results get q total deep api results sent :
  _run base_url default query max_results get = (Success q total deep api results, sent) ->
  exists status_code fields dicts,
    get sent = Answered status_code (Some (JObj fields))
    /\ ((400 <=? status_code)%Z && (status_code <? 600)%Z = false)
    /\ is_Some (lookup_key (lit "results") fields)
    /\ iterate (item_get (lit "results") JNull fields) = inr (JObj <$> dicts)
    /\ format_items 1 dicts = inr results
    /\ q = query /\ total = length results
    /\ deep = count_tier (lit "deep") results
    /\ api = count_tier (lit "api") results.
Proof.
  unfold _run. intros [= H <-].
  destruct (get _) as [| | type_name | status_code body] eqn:Hget; try done.
  destruct ((400 <=? status_code)%Z && (status_code <? 600)%Z) eqn:Hstatus; [done |].
  destruct body as [data|]; [| done].
  destruct (key_in (lit "results") data) as [e|[|]] eqn:Hin; try done.
  destruct data as [| | | | |fields]; try done.
  destruct (iterate _) as [e|items] eqn:Hit; [done |].
  destruct (as_dicts items) as [e|dicts] eqn:Hdicts; [done |].
  destruct (log_lengths deep_names dicts); [done |].
  destruct (log_lengths api_names dicts); [done |].
  destruct (format_items 1 dicts) as [e|formatted] eqn:Hf; [done |].
  injection H as <- <- <- <- <-.
  exists status_code, fields, dicts.
  apply as_dicts_spec in Hdicts as ->.
  cbn [key_in] in Hin. injection Hin as Hin. apply bool_decide_eq_true in Hin.
  by repeat split.
Qed.


(** X29.  A successful search numbers its entries 1, 2, ... in order;
    [total_results] is their number; the two tier counts are the numbers of
    entries whose source is one of the local, respectively global, names,
    and together never exceed the total; [content_length] is the length of
    the entry's content. *)
Theorem search_success_shape default query max_results get q total deep api results sent :
  _run base_url default query max_results get = (Success q total deep api results, sent) ->
  q = query
  /\ total = length results
  /\ id <$> results = seq 1 total
  /\ deep = length (filter (fun r => is_source deep_names (source r) = true) results)
  /\ api = length (filter (fun r => is_source api_names (source r) = true) results)
  /\ deep + api <= total
  /\ Forall (fun r => py_len (content r) = inr (content_length r)) results.
Proof.
  intros (status_code & fields & dicts & _ & _ & _ & _ & Hf & -> & -> & -> & ->)%run_success.
  apply format_items_spec in Hf as [Hids Hall].
  assert (Hlen : length results = length dicts).
  { by rewrite <- (length_fmap id results), Hids, length_seq. }
  assert (Htier : Forall (fun r => tier r = tier_of (source r)) results).
  { eapply Forall_impl; [exact Hall |]. by intros r [_ Hr]. }
  split; [done |]. split; [done |]. split; [by rewrite Hlen |].
  split; [by apply count_tier_deep |]. split; [by apply count_tier_api |].
  split; [apply count_tiers_le |].
  eapply Forall_impl; [exact Hall |]. by intros r [Hr _].
Qed.

(** X30.  A search succeeds only when the service answered with a status
    outside 400..599 and a JSON object whose ["results"] is a collection of
    objects, one for each entry returned. *)
Theorem search_success_requires_results default query max_results get
    q total deep api results sent :
  _run base_url default query max_results get = (Success q total deep api results, sent) ->
  exists status_code fields dicts,
    get sent = Answered status_code (Some (JObj fields))
    /\ ~ (400 <= status_code < 600)%Z
    /\ is_Some (lookup_key (lit "results") fields)
    /\ iterate (item_get (lit "results") JNull fields) = inr (JObj <$> dicts)
    /\ length results = length dicts.
Proof.
  intros (status_code & fields & dicts & Hget & Hstatus & Hkey & Hit & Hf & _)%run_success.
  exists status_code, fields, dicts.
  apply format_items_spec in Hf as [Hids _].
  split; [done |]. split; [| split; [done |]; split; [done |]].
  - apply andb_false_iff in Hstatus as [H%Z.leb_gt | H%Z.ltb_ge]; lia.
  - by rewrite <- (length_fmap id results), Hids, length_seq.
Qed.
End Run.

(** A service answering with one local and one global article. *)
Definition two_articles : Json :=
  JObj [(lit "results",
         JArr [JObj [(lit "source", JStr (lit "Infobae")); (lit "content", JStr (lit "abc"))];
               JObj [(lit "source", JStr (lit "NewsAPI")); (lit "title", JStr (lit "IA"))]])].

Definition answering (max_results : Z) : GetOutcome := Answered 200 (Some two_articles).

Definition two_formatted : list Formatted :=
  [ {| id := 1; title := JStr (lit "Sin título"); content := JStr (lit "abc");
       source := JStr (lit "Infobae"); url := JStr []; date := JStr [];
       tier := lit "deep"; content_length := 3;
       extraction_method := JStr (lit "unknown") |};
    {| id := 2; title := JStr (lit "IA"); content := JStr (lit "Sin contenido");
       source := JStr (lit "NewsAPI"); url := JStr []; date := JStr [];
       tier := lit "api"; content_length := 13;
       extraction_method := JStr (lit "unknown") |} ].

Lemma answering_run :
  _run (lit "http://127.0.0.1:5000") 5 (lit "ia") (Some 50%Z) answering
  = (Success (lit "ia") 2 1 1 two_formatted, 20%Z).
Proof. by vm_compute. Qed.

Lemma search_success_shape_witness :
  _run (lit "http://127.0.0.1:5000") 5 (lit "ia") (Some 50%Z) answering
  = (Success (lit "ia") 2 1 1 two_formatted, 20%Z)
  /\ id <$> two_formatted = seq 1 2.
Proof.
  split; [exact answering_run |].
  exact (proj1 (proj2 (proj2
    (search_success_shape (lit "http://127.0.0.1:5000") 5 (lit "ia") (Some 50%Z) answering
       (lit "ia") 2 1 1 two_formatted 20%Z answering_run)))).
Defined.

Lemma search_success_requires_results_witness :
  _run (lit "http://127.0.0.1:5000") 5 (lit "ia") (Some 50%Z) answering
  = (Success (lit "ia") 2 1 1 two_formatted, 20%Z)
  /\ exists status_code fields dicts,
       answering 20%Z = Answered status_code (Some (JObj fields))
       /\ ~ (400 <= status_code < 600)%Z
       /\ is_Some (lookup_key (lit "results") fields)
       /\ iterate (item_get (lit "results") JNull fields) = inr (JObj <$> dicts)
       /\ length two_formatted = length dicts.
Proof.
  split; [exact answering_run |].
  exact (search_success_requires_results (lit "http://127.0.0.1:5000") 5 (lit "ia")
           (Some 50%Z) answering (lit "ia") 2 1 1 two_formatted 20%Z answering_run).
Defined.

End ToolsFacts.
